(** * A2A host agent: credential provider, proxy registry and reply decoder

    Shallow embedding of the host side of the multi-agent repository:
    - [multi-agents/host/agent.py]: [get_bearer_token],
      [create_simple_client_factory], [get_root_agent],
      [_get_system_instruction], [get_agent_and_card];
    - [multi-agents/host/host_agent_bedrock.py]: the entrypoint [call_agent];
    - [multi-agents/host/host_invocation_example.py]: [format_agent_response],
      [create_message], [send_sync_message].

    Python strings are modelled as [string] (ASCII text); dictionaries that
    are used as maps are [gmap string _]; the configuration dictionaries,
    whose keys are fixed, are records.  Network calls, the secret store and
    the ADK runner are the environment: they are fields of [Env], functions
    of the trace of external calls made so far, and every call is appended
    to that trace. *)

From Stdlib Require Import String Ascii List Arith Lia DecimalString.
From stdpp Require Import base option list gmap strings.

Import ListNotations.
Open Scope string_scope.

(** ** Python string operations used by the source *)

Module PyStr.

(** [c.lower()] on one ASCII character. *)
Definition lower_char (c : ascii) : ascii :=
  let n := nat_of_ascii c in
  if ((65 <=? n) && (n <=? 90))%nat then ascii_of_nat (n + 32) else c.

(** [s.lower()]. *)
Fixpoint lower (s : string) : string :=
  match s with
  | EmptyString => EmptyString
  | String c s' => String (lower_char c) (lower s')
  end.

(** [s.startswith(p)]. *)
Fixpoint startswith (p s : string) : bool :=
  match p, s with
  | EmptyString, _ => true
  | String _ _, EmptyString => false
  | String a p', String b s' => if Ascii.eqb a b then startswith p' s' else false
  end.

(** Body of [s.replace(old, new)] for a non-empty [old]: scan from the
    left, and after a match skip the characters the match covers. *)
Fixpoint replace_from (old new s : string) (skip : nat) : string :=
  match s with
  | EmptyString => EmptyString
  | String c s' =>
      match skip with
      | S k => replace_from old new s' k
      | O =>
          if startswith old s
          then new +:+ replace_from old new s' (String.length old - 1)
          else String c (replace_from old new s' 0)
      end
  end.

(** [s.replace("", new)] puts [new] before every character and at the end. *)
Fixpoint replace_empty (new s : string) : string :=
  match s with
  | EmptyString => new
  | String c s' => new +:+ String c (replace_empty new s')
  end.

(** [s.replace(old, new)]. *)
Definition replace (old new s : string) : string :=
  match old with
  | EmptyString => replace_empty new s
  | String _ _ => replace_from old new s 0
  end.

(** [s.split(sep)] for a one-character separator, as a pair: the first
    field and the remaining fields. The result of [split] is never empty. *)
Fixpoint split_fields (sep : ascii) (s : string) : string * list string :=
  match s with
  | EmptyString => (EmptyString, [])
  | String c s' =>
      let '(f, fs) := split_fields sep s' in
      if Ascii.eqb c sep then (EmptyString, f :: fs) else (String c f, fs)
  end.

Definition split (sep : ascii) (s : string) : list string :=
  let '(f, fs) := split_fields sep s in f :: fs.

(** [sep.join(l)]. *)
Fixpoint join (sep : string) (l : list string) : string :=
  match l with
  | [] => EmptyString
  | [x] => x
  | x :: l' => x +:+ sep +:+ join sep l'
  end.

(** [''.join(l)]. *)
Fixpoint concat (l : list string) : string :=
  match l with
  | [] => EmptyString
  | x :: l' => x +:+ concat l'
  end.

(** [c in s] for a character. *)
Fixpoint contains_char (c : ascii) (s : string) : bool :=
  match s with
  | EmptyString => false
  | String d s' => if Ascii.eqb d c then true else contains_char c s'
  end.

(** [s.rstrip(c)] for one character: a character is dropped when it
    is [c] and everything after it has been dropped. *)
Fixpoint rstrip (c : ascii) (s : string) : string :=
  match s with
  | EmptyString => EmptyString
  | String d s' =>
      match rstrip c s' with
      | EmptyString => if Ascii.eqb d c then EmptyString else String d EmptyString
      | r => String d r
      end
  end.

Definition hex_digit (n : nat) : ascii :=
  if (n <? 10)%nat then ascii_of_nat (48 + n) else ascii_of_nat (55 + n).

(** The characters [urllib.parse.quote] never escapes: letters, digits
    and [_.-~]. *)
Definition unreserved (c : ascii) : bool :=
  let n := nat_of_ascii c in
  (((65 <=? n) && (n <=? 90)) || ((97 <=? n) && (n <=? 122))
   || ((48 <=? n) && (n <=? 57))
   || (n =? 95) || (n =? 46) || (n =? 45) || (n =? 126))%nat.

(** [urllib.parse.quote(s, safe='')]. *)
Fixpoint quote (s : string) : string :=
  match s with
  | EmptyString => EmptyString
  | String c s' =>
      if unreserved c then String c (quote s')
      else
        let n := nat_of_ascii c in
        String "%" (String (hex_digit (n / 16)) (String (hex_digit (n mod 16)) (quote s')))
  end.

End PyStr.

(** ** Data model *)

(** The exceptions the modelled code raises.  [EnvError] stands for an
    exception raised inside a library or a service (botocore's ClientError,
    an httpx timeout, a JSON decoding error, a card that fails validation),
    named by its class; [ProxyResolutionError] is the wrapper the
    specification gives to a failed resolution of a proxy. *)
Inductive Exn :=
| KeyError (arg : string)
| IndexError (arg : string)
| ValueError (arg : string)
| AttributeError (arg : string)
| TypeError (arg : string)
| Exception (arg : string)
| HTTPStatusError (status : nat)
| EnvError (cls : string)
| ProxyResolutionError (cause : Exn).


(** The outcome of a call: a value, or a raised exception. *)
Inductive Result (A : Type) :=
| Ok (a : A)
| Raise (e : Exn).
Arguments Ok {A} a.
Arguments Raise {A} e.

(** The IDP configuration [fetch_ssm_parameter] returns: a dictionary with
    the five keys [get_bearer_token] indexes, and [scopes], which it reads
    with [.get("scopes", [])] ([None]: the key is absent). *)
Record IdpConfig := {
  domain : string;
  user_pool_id : string;
  client_id : string;
  client_secret : string;
  resource_server_identifier : string;
  scopes : option (list string)
}.

(** One entry of [config['agents']] in config.yaml. *)
Record AgentConfig := {
  cfg_name : string;
  cfg_description : string;
  cfg_region : string;
  cfg_runtime_arn : string;
  cfg_ssm_idp_config_path : string
}.

(** [client.post(url, data=..., headers=...)] of an
    [httpx.AsyncClient(timeout=...)]. *)
Record HttpRequest := {
  req_url : string;
  req_data : list (string * string);
  req_headers : list (string * string);
  req_timeout : nat
}.

(** What [response.json()] returns: a JSON object, read as a dictionary
    of strings, or a JSON value of another kind (an array, a string, a
    number, [true], [false], [null]).  Python indexes a dictionary only:
    [value["key"]] on a value of another kind raises TypeError, with the
    message [subscript_error], which depends on the kind of the value. *)
Inductive JsonValue :=
| JsonObject (fields : gmap string string)
| JsonOther (subscript_error : string).

(** An HTTP response: its status and its body parsed as JSON ([None]: the
    body is not JSON). *)
Record HttpResponse := {
  status_code : nat;
  json_body : option JsonValue
}.

(** [httpx.AsyncClient(timeout=..., headers=...)]. *)
Record HttpxClient := {
  client_timeout : nat;
  client_headers : list (string * string)
}.

Record AgentCard := {
  card_name : string;
  card_description : string;
  card_url : string
}.

(** [ClientConfig(httpx_client=..., streaming=...)]. *)
Record ClientConfig := {
  httpx_client : HttpxClient;
  streaming : bool
}.

(** [ClientFactory(config)]. *)
Record ClientFactory := {
  factory_config : ClientConfig
}.

(** The client [factory.create(agent_card)] builds: bound to one card. *)
Record Client := {
  bound_config : ClientConfig;
  bound_card : AgentCard
}.

(** [RemoteA2aAgent]: the attributes the source passes to the constructor
    and the private ones [get_agents_cards] reads. *)
Record RemoteA2aAgent := {
  agent_name : string;
  agent_description : string;
  _agent_card_source : option string;
  _agent_card : option AgentCard;
  _a2a_client_factory : ClientFactory;
  _a2a_client : option Client;
  _is_resolved : bool
}.

(** The root [Agent]. *)
Record Agent := {
  root_model : string;
  root_name : string;
  sub_agents : list RemoteA2aAgent;
  instruction : string
}.

Inductive Role := user | agent.

(** [role.value]. *)
Definition role_value (r : Role) : string :=
  match r with
  | user => "user"
  | agent => "agent"
  end.

(** [Part.root]: a text part, or one of the parts that carry no [text]. *)
Inductive PartRoot :=
| TextPart (text : string)
| FilePart (file : string)
| DataPart (data : string).

Record Part := { root : PartRoot }.

Record Message := {
  role : Role;
  parts : list Part;
  message_id : string
}.

Record Artifact := { artifact_parts : list Part }.

(** A task reply.  [artifacts] is optional in the reply. *)
Record Task := {
  context_id : string;
  task_id : string;
  status_state : string;
  status_timestamp : string;
  history : list Message;
  artifacts : option (list Artifact)
}.

Record UpdateEvent := { update_task_id : string; update_state : string }.

(** What iterating [client.send_message(msg)] yields. *)
Inductive StreamEvent :=
| EvMessage (m : Message)
| EvTaskUpdate (task : Task) (update_event : option UpdateEvent)
| EvOther (repr : string).

(** What the remote agent answers to one message: a message, or a task
    that went through some updates before its final state. *)
Inductive RemoteResponse :=
| RemoteMessage (m : Message)
| RemoteTask (updates : list (Task * UpdateEvent)) (final : Task).

(** The data [get_agents_cards] collects for one agent. *)
Record AgentData := {
  data_agent_card_url : option string;
  data_agent_card : option AgentCard
}.

(** An event of the ADK runner, passed through by [call_agent]. *)
Record RunnerEvent := { event_author : string; event_text : string }.

(** What [call_agent], an async generator, yields. *)
Inductive Yield :=
| YAgentsCards (agents_cards : gmap string AgentData)
| YEvent (event : RunnerEvent).

(** Calls that leave the process, in the order they are made ([Uuid4]: a
    draw of a random identifier). *)
Inductive Call :=
| SsmGetParameter (path region : string)
| TokenPost (req : HttpRequest)
| CardGet (url : string) (headers : list (string * string))
| RunnerRun (root : Agent) (user_id session_id query : string)
| MessageSend (url : string) (headers : list (string * string)) (msg : Message)
| Uuid4.

(** One run of [runner.run_async]: the messages its sub-agent proxies
    send, the events it yields, and the exception that ends it, if any. *)
Record RunnerResult := {
  run_sends : list (string * list (string * string) * Message);
  run_events : list RunnerEvent;
  run_error : option Exn
}.

(** The environment.  Every answer may depend on the calls made so far. *)
Record Env := {
  config_agents : list AgentConfig;
  ssm_get_parameter : list Call -> string -> string -> Result IdpConfig;
  httpx_post : list Call -> HttpRequest -> Result HttpResponse;
  httpx_get_card : list Call -> string -> list (string * string) -> Result AgentCard;
  remote_reply : list Call -> string -> list (string * string) -> Message -> Result RemoteResponse;
  runner_run_async : list Call -> Agent -> string -> string -> string -> RunnerResult;
  today : list Call -> string;
  uuid4 : list Call -> string
}.

(** The state of the host process: the module-level [root_agent] and
    [session_service] of host_agent_bedrock.py, the trace of outside
    calls, and what the running generator has yielded. *)
Record World := {
  root_agent : option Agent;
  session_service : gset (string * string * string);
  trace : list Call;
  yielded : list Yield
}.

Definition initial_world : World :=
  {| root_agent := None; session_service := ∅; trace := []; yielded := [] |}.

(** ** The monad of the modelled code: state and exceptions *)

Definition M (A : Type) : Type := World -> Result A * World.

Definition ret {A} (a : A) : M A := fun w => (Ok a, w).

Definition raise {A} (e : Exn) : M A := fun w => (Raise e, w).

Definition bind {A B} (c : M A) (k : A -> M B) : M B :=
  fun w =>
    match c w with
    | (Ok a, w') => k a w'
    | (Raise e, w') => (Raise e, w')
    end.

(** [try: c except Exception as e: h e]. *)
Definition try_except {A} (c : M A) (h : Exn -> M A) : M A :=
  fun w =>
    match c w with
    | (Ok a, w') => (Ok a, w')
    | (Raise e, w') => h e w'
    end.

Notation "x <- c ;; k" := (bind c (fun x => k))
  (at level 100, c at next level, right associativity).
Notation "c ;;; k" := (bind c (fun _ => k))
  (at level 100, right associativity).

Definition lift_result {A} (r : Result A) : M A :=
  match r with
  | Ok a => ret a
  | Raise e => raise e
  end.

Definition add_call (c : Call) (w : World) : World :=
  {| root_agent := root_agent w; session_service := session_service w;
     trace := trace w ++ [c]; yielded := yielded w |}.

Definition add_calls (cs : list Call) (w : World) : World :=
  {| root_agent := root_agent w; session_service := session_service w;
     trace := trace w ++ cs; yielded := yielded w |}.

Definition set_root_agent (a : option Agent) (w : World) : World :=
  {| root_agent := a; session_service := session_service w;
     trace := trace w; yielded := yielded w |}.

Definition set_session_service (s : gset (string * string * string)) (w : World) : World :=
  {| root_agent := root_agent w; session_service := s;
     trace := trace w; yielded := yielded w |}.

Definition add_yield (y : Yield) (w : World) : World :=
  {| root_agent := root_agent w; session_service := session_service w;
     trace := trace w; yielded := yielded w ++ [y] |}.

(** The world at the start of a turn: nothing yielded yet. *)
Definition start_turn (w : World) : World :=
  {| root_agent := root_agent w; session_service := session_service w;
     trace := trace w; yielded := [] |}.

(** An outside call: the environment answers from the trace so far, and
    the call joins the trace whether it succeeds or not. *)
Definition outside {A} (c : Call) (answer : list Call -> Result A) : M A :=
  fun w => lift_result (answer (trace w)) (add_call c w).

(** [yield y]. *)
Definition yield_ (y : Yield) : M unit := fun w => (Ok tt, add_yield y w).

(** Reading from the environment without a call (the clock). *)
Definition ask {A} (f : list Call -> A) : M A := fun w => (Ok (f (trace w)), w).

(** [l[0]]. *)
Definition item0 {A} (l : list A) : M A :=
  match l with
  | x :: _ => ret x
  | [] => raise (IndexError "list index out of range")
  end.

Definition nl : string := String (ascii_of_nat 10) EmptyString.
Definition dquote : string := String (ascii_of_nat 34) EmptyString.

(** ** agent.py: the system instruction *)

(** The text of the f-string of [_get_system_instruction], cut at its two
    holes and at its two double quotes. *)
Definition instruction_before_agents : string :=
"
Role: You are the Lead Orchestrator, an expert triage and coordination agent for incident response and operations management. Your primary function is to route user requests to the right specialist agent, track progress, and report back clearly.

Specialist Agents Available:

".

Definition instruction_directives_1 : string :=
"

Core Directives:

1. Initiate Triage: When asked for help, first clarify the objective and relevant scope (AWS account/region/service, time window, urgency).

2. Task Delegation: Use the send_message_to_agent tool to contact the appropriate agent(s).
   - Be explicit: e.g., ".

Definition instruction_example : string :=
"Please scan CloudWatch logs and metrics for service X between 2024-08-01 and 2024-08-03.".

Definition instruction_directives_2 : string :=
"
   - Always pass the official agent name (Monitoring_Agent, OpsRemediation_Agent) when sending messages.

3. Analyze Responses: Correlate findings from all contacted agents. Summarize root causes, evidence (metrics/logs), and proposed actions.

4. Jira Workflow: If Monitoring_Agent reports an issue, ensure a Jira ticket is (or gets) created, capture the ticket ID, status, and assignee, and keep it updated as remediation proceeds.

5. Propose and Confirm: Present recommended actions (and any risk/impact) to the user for confirmation. If the user has pre-approved runbooks, proceed accordingly.

6. Execute Remediation: After confirmation, instruct OpsRemediation_Agent to perform the fix. Track outcomes and validation steps (post-fix metrics, log baselines).

7. Transparent Communication: Relay progress and final results, including Jira IDs/links and any residual follow-ups. Do not ask for permission before contacting specialist agents.

8. Tool Reliance: Strictly rely on available tools to fulfill requests. Do not invent results or act without agent/tool confirmation.

9. Readability: Respond concisely, preferably with bullet points and short sections.

10. Agent Selection: Choose the appropriate agent based on the task:
    - Monitoring_Agent: For AWS metrics, logs, CloudWatch alarms, Jira ticket creation
    - OpsRemediation_Agent: For searching remediation strategies, AWS documentation, troubleshooting guidance

Today's Date (YYYY-MM-DD): ".

Definition _get_system_instruction (agent_descriptions date : string) : string :=
  instruction_before_agents +:+ agent_descriptions +:+
  instruction_directives_1 +:+ dquote +:+ instruction_example +:+ dquote +:+
  instruction_directives_2 +:+ date +:+ nl.

(** ** agent.py: credential provider *)

Section Host.

Variable env : Env.

(** [fetch_ssm_parameter]: one call to the parameter store; the value is
    parsed as the IDP configuration. *)
Definition fetch_ssm_parameter (parameter_path region : string) : M IdpConfig :=
  outside (SsmGetParameter parameter_path region)
          (fun tr => ssm_get_parameter env tr parameter_path region).

(** [region = idp_config["user_pool_id"].split("_")[0]]. *)
Definition idp_region (idp_config : IdpConfig) : M string :=
  item0 (PyStr.split "_" (user_pool_id idp_config)).

Definition token_endpoint (domain region : string) : string :=
  "https://" +:+ domain +:+ ".auth." +:+ region +:+ ".amazoncognito.com/oauth2/token".

(** [" ".join([f"{resource_server}/{scope}" for scope in scopes])]. *)
Definition scope_str (idp_config : IdpConfig) : string :=
  let scopes := default [] (scopes idp_config) in
  let resource_server := resource_server_identifier idp_config in
  PyStr.join " " (map (fun scope => resource_server +:+ "/" +:+ scope) scopes).

Definition token_data (idp_config : IdpConfig) : list (string * string) :=
  [ ("grant_type", "client_credentials");
    ("client_id", client_id idp_config);
    ("client_secret", client_secret idp_config);
    ("scope", scope_str idp_config) ].

Definition token_request (idp_config : IdpConfig) (region : string) : HttpRequest :=
  {| req_url := token_endpoint (domain idp_config) region;
     req_data := token_data idp_config;
     req_headers := [("Content-Type", "application/x-www-form-urlencoded")];
     req_timeout := 30 |}.

(** [response.raise_for_status()]: anything but a 2xx status raises. *)
Definition raise_for_status (response : HttpResponse) : M unit :=
  if ((200 <=? status_code response) && (status_code response <? 300))%nat
  then ret tt
  else raise (HTTPStatusError (status_code response)).

(** [response.json()]. *)
Definition response_json (response : HttpResponse) : M JsonValue :=
  match json_body response with
  | Some value => ret value
  | None => raise (EnvError "JSONDecodeError")
  end.

(** [d[key]] for a string [key]. *)
Definition getitem (d : JsonValue) (key : string) : M string :=
  match d with
  | JsonObject fields =>
      match fields !! key with
      | Some v => ret v
      | None => raise (KeyError key)
      end
  | JsonOther subscript_error => raise (TypeError subscript_error)
  end.

(** [get_bearer_token], the same function in agent.py and in
    host_invocation_example.py. *)
Definition get_bearer_token (idp_config : IdpConfig) : M string :=
  region <- idp_region idp_config ;;
  let request := token_request idp_config region in
  response <- outside (TokenPost request) (fun tr => httpx_post env tr request) ;;
  raise_for_status response ;;;
  token_response <- response_json response ;;
  getitem token_response "access_token".

(** ** agent.py: card resolver and client factory *)

Definition well_known_path : string := ".well-known/agent-card.json".

(** Modelled from the spec: [A2ACardResolver.get_agent_card] belongs to
    the a2a SDK and is missing from the sources.  The specification has
    it append the fixed well-known metadata path to the base URL and
    issue one GET, [{base_url}/.well-known/agent-card.json]; the base URL
    is taken without its trailing slashes, so that one slash separates it
    from the path.  The GET goes through the resolver's HTTP client and
    carries its headers. *)
Definition get_agent_card (client : HttpxClient) (base_url : string) : M AgentCard :=
  let url := PyStr.rstrip "/" base_url +:+ "/" +:+ well_known_path in
  outside (CardGet url (client_headers client))
          (fun tr => httpx_get_card env tr url (client_headers client)).

(** The f-string both [create_simple_client_factory] and
    [send_sync_message] build from [region] and [quote(runtime_arn, safe='')]. *)
Definition runtime_url (region runtime_arn : string) : string :=
  "https://bedrock-agentcore." +:+ region +:+ ".amazonaws.com/runtimes/" +:+
  PyStr.quote runtime_arn +:+ "/invocations/".

Definition auth_headers (bearer_token session_id : string) : list (string * string) :=
  [ ("Authorization", "Bearer " +:+ bearer_token);
    ("X-Amzn-Bedrock-AgentCore-Runtime-Session-Id", session_id) ].

Definition create_simple_client_factory (agent_config : AgentConfig) (session_id : string)
  : M (ClientFactory * AgentCard) :=
  idp_config <- fetch_ssm_parameter (cfg_ssm_idp_config_path agent_config)
                                    (cfg_region agent_config) ;;
  bearer_token <- get_bearer_token idp_config ;;
  let runtime_url := runtime_url (cfg_region agent_config) (cfg_runtime_arn agent_config) in
  let headers := auth_headers bearer_token session_id in
  let httpx_client := {| client_timeout := 300; client_headers := headers |} in
  agent_card <- get_agent_card httpx_client runtime_url ;;
  let config := {| httpx_client := httpx_client; streaming := false |} in
  let factory := {| factory_config := config |} in
  ret (factory, agent_card).

(** ** agent.py: the root agent and its proxies *)

(** [agent_card_url] of [get_root_agent]. *)
Definition agent_card_url (agent_config : AgentConfig) : string :=
  "https://bedrock-agentcore." +:+ cfg_region agent_config +:+ ".amazonaws.com/runtimes/" +:+
  PyStr.quote (cfg_runtime_arn agent_config) +:+ "/invocations/.well-known/agent-card.json".

(** [RemoteA2aAgent(name=..., description=..., agent_card=<url>,
    a2a_client_factory=...)]: given a URL, the proxy keeps it as its card
    source and starts unresolved. *)
Definition new_remote_agent (name description card_url : string) (factory : ClientFactory)
  : RemoteA2aAgent :=
  {| agent_name := name;
     agent_description := description;
     _agent_card_source := Some card_url;
     _agent_card := None;
     _a2a_client_factory := factory;
     _a2a_client := None;
     _is_resolved := false |}.

(** The name [get_root_agent] registers a proxy under. *)
Definition registered_name (agent_config : AgentConfig) : string :=
  PyStr.replace "_" "_" (PyStr.lower (cfg_name agent_config)).

(** The [for agent_config in config['agents']] loop of [get_root_agent];
    [sub_agents] is the list built so far. *)
Fixpoint build_sub_agents (configs : list AgentConfig) (session_id : string)
         (sub_agents : list RemoteA2aAgent) : M (list RemoteA2aAgent) :=
  match configs with
  | [] => ret sub_agents
  | agent_config :: configs' =>
      let agent_card_url := agent_card_url agent_config in
      fc <- create_simple_client_factory agent_config session_id ;;
      let agent := new_remote_agent (registered_name agent_config)
                                    (cfg_description agent_config)
                                    agent_card_url (fst fc) in
      build_sub_agents configs' session_id (sub_agents ++ [agent])
  end.

(** ["\n".join([f"- {agent.name}: {agent.description}" for agent in sub_agents])]. *)
Definition agent_descriptions (sub_agents : list RemoteA2aAgent) : string :=
  PyStr.join nl (map (fun a => "- " +:+ agent_name a +:+ ": " +:+ agent_description a)
                     sub_agents).

Definition get_root_agent (session_id actor_id : string) : M Agent :=
  sub_agents <- build_sub_agents (config_agents env) session_id [] ;;
  date <- ask (today env) ;;
  ret {| root_model := "gemini-2.0-flash";
         root_name := "root_agent";
         sub_agents := sub_agents;
         instruction := _get_system_instruction (agent_descriptions sub_agents) date |}.

(** [factory.create(agent_card)]: construction only, no network call. *)
Definition factory_create (factory : ClientFactory) (card : AgentCard) : Client :=
  {| bound_config := factory_config factory; bound_card := card |}.

(** Modelled from the spec: [RemoteA2aAgent._ensure_resolved] belongs to
    the ADK and is missing from the sources.  The specification makes it
    idempotent: the first call resolves the agent card from the proxy's
    card source through its authenticated HTTP client and builds the
    bound client, later calls do nothing; a failing step is wrapped in
    the resolution error and leaves the proxy unresolved.  (The secret
    store and token steps the specification lists before these are done
    by [create_simple_client_factory], which hands the proxy its
    factory.) *)
Definition _ensure_resolved (a : RemoteA2aAgent) : M RemoteA2aAgent :=
  if _is_resolved a then ret a
  else
    try_except
      (card <- match _agent_card a, _agent_card_source a with
               | Some card, _ => ret card
               | None, Some url =>
                   let headers := client_headers (httpx_client (factory_config (_a2a_client_factory a))) in
                   outside (CardGet url headers) (fun tr => httpx_get_card env tr url headers)
               | None, None => raise (ValueError "no agent card source")
               end ;;
       ret {| agent_name := agent_name a;
              agent_description := agent_description a;
              _agent_card_source := _agent_card_source a;
              _agent_card := Some card;
              _a2a_client_factory := _a2a_client_factory a;
              _a2a_client := Some (factory_create (_a2a_client_factory a) card);
              _is_resolved := true |})
      (fun e => raise (ProxyResolutionError e)).

(** [get_agents_cards]: the loop over [root_agent.sub_agents].  The
    proxies are objects that [_ensure_resolved] updates in place, so the
    loop also returns them as they are afterwards.  [resolved] and
    [agents_info] are the proxies and the dictionary so far. *)
Fixpoint get_agents_cards (sub_agents resolved : list RemoteA2aAgent)
         (agents_info : gmap string AgentData)
  : M (list RemoteA2aAgent * gmap string AgentData) :=
  match sub_agents with
  | [] => ret (resolved, agents_info)
  | a :: sub_agents' =>
      let url := _agent_card_source a in
      a' <- _ensure_resolved a ;;
      let agent_data := {| data_agent_card_url := url; data_agent_card := _agent_card a' |} in
      get_agents_cards sub_agents' (resolved ++ [a']) (<[agent_name a' := agent_data]> agents_info)
  end.

(** [get_agent_and_card]: the root agent it returns holds the proxies as
    [get_agents_cards] left them. *)
Definition get_agent_and_card (session_id actor_id : string)
  : M (Agent * gmap string AgentData) :=
  root <- get_root_agent session_id actor_id ;;
  ra <- get_agents_cards (sub_agents root) [] ∅ ;;
  ret ({| root_model := root_model root;
          root_name := root_name root;
          sub_agents := fst ra;
          instruction := instruction root |}, snd ra).

(** ** host_agent_bedrock.py: the entrypoint *)

Definition APP_NAME : string := "HostAgentA2A".

Definition get_world : M World := fun w => (Ok w, w).

Definition modify (f : World -> World) : M unit := fun w => (Ok tt, f w).

(** [runner.run_async(...)] iterated to its end by [call_agent], each
    event yielded in turn: the run is recorded, then the messages its
    proxies send. *)
Definition run_async (root : Agent) (user_id session_id query : string) : M unit :=
  fun w =>
    let r := runner_run_async env (trace w) root user_id session_id query in
    let sends := map (fun s => MessageSend (fst (fst s)) (snd (fst s)) (snd s)) (run_sends r) in
    let w1 := add_calls (RunnerRun root user_id session_id query :: sends) w in
    let w2 := fold_left (fun w' ev => add_yield (YEvent ev) w') (run_events r) w1 in
    match run_error r with
    | Some e => (Raise e, w2)
    | None => (Ok tt, w2)
    end.

(** [call_agent(payload, context)], run to the end of the generator.
    [session_id] is [context.session_id]; the values of the payload are
    strings, so that [not query] holds for a missing key and for the empty
    string; logging is left out.  [root] is the value the global
    [root_agent] has from the first block on. *)
Definition call_agent (payload : gmap string string) (session_id : option string) : M unit :=
  let actor_id := "Actor1" in
  session_id <- match session_id with
                | Some (String c s) => ret (String c s)
                | _ => raise (Exception "Context session_id is not set")
                end ;;
  w <- get_world ;;
  root <- match root_agent w with
          | Some root => ret root
          | None =>
              rc <- try_except (get_agent_and_card session_id actor_id) (fun e => raise e) ;;
              modify (set_root_agent (Some (fst rc))) ;;;
              yield_ (YAgentsCards (snd rc)) ;;;
              ret (fst rc)
          end ;;
  let query := payload !! "prompt" in
  query <- match query with
           | Some (String c s) => ret (String c s)
           | _ => raise (KeyError "'prompt' field is required in payload")
           end ;;
  w <- get_world ;;
  let in_memory_session := bool_decide ((APP_NAME, actor_id, session_id) ∈ session_service w) in
  (if in_memory_session then ret tt
   else modify (set_session_service ({[ (APP_NAME, actor_id, session_id) ]} ∪ session_service w))) ;;;
  run_async root actor_id session_id query.

(** One turn: the generator starts with nothing yielded. *)
Definition run_turn (payload : gmap string string) (session_id : option string) (w : World)
  : Result unit * World :=
  call_agent payload session_id (start_turn w).

(** ** host_invocation_example.py *)

(** [load_agent_configs]: [agent_configs[agent_config["name"]] = agent_config]
    for every entry, later entries overwriting earlier ones. *)
Definition load_agent_configs (agents : list AgentConfig) (agent_configs : gmap string AgentConfig)
  : gmap string AgentConfig :=
  fold_left (fun m agent_config => <[cfg_name agent_config := agent_config]> m) agents agent_configs.

(** [create_message(role=Role.user, text=text)], with [uuid4().hex] as
    the message id. *)
Definition create_message (text : string) : M Message :=
  message_id <- outside Uuid4 (fun tr => Ok (uuid4 env tr)) ;;
  ret {| role := user; parts := [ {| root := TextPart text |} ]; message_id := message_id |}.

(** Modelled from the spec: the events a bound client's [send_message]
    yields for one answer of the remote agent ([Client.send_message]
    belongs to the a2a SDK and is missing from the sources).  The
    specification: exactly one Message when the remote agent completes
    synchronously, or a sequence of (Task, UpdateEvent or None) pairs when
    it streams; with [streaming=false] the sequence collapses to one pair
    whose Task carries the final state. *)
Definition reply_events (streaming : bool) (response : RemoteResponse) : list StreamEvent :=
  match response with
  | RemoteMessage m => [EvMessage m]
  | RemoteTask updates final =>
      if streaming
      then map (fun tu => EvTaskUpdate (fst tu) (Some (snd tu))) updates ++ [EvTaskUpdate final None]
      else [EvTaskUpdate final None]
  end.

(** [client.send_message(msg)]: one request to the bound card's URL
    through the client's HTTP client. *)
Definition send_message (client : Client) (msg : Message) : M (list StreamEvent) :=
  let url := card_url (bound_card client) in
  let headers := client_headers (httpx_client (bound_config client)) in
  response <- outside (MessageSend url headers msg)
                      (fun tr => remote_reply env tr url headers msg) ;;
  ret (reply_events (streaming (bound_config client)) response).

(** What [send_sync_message] returns. *)
Inductive Reply :=
| ReplyMessage (m : Message)
| ReplyTask (task : Task)
| ReplyOther (repr : string).

(** The [async for event in client.send_message(msg)] loop: every branch
    of its body returns, so only the first event is looked at; with no
    event the function falls off its end and returns [None]. *)
Definition first_reply (events : list StreamEvent) : option Reply :=
  match events with
  | [] => None
  | EvMessage m :: _ => Some (ReplyMessage m)
  | EvTaskUpdate task _ :: _ => Some (ReplyTask task)
  | EvOther r :: _ => Some (ReplyOther r)
  end.

Definition DEFAULT_TIMEOUT : nat := 300.

Definition send_sync_message (agent_configs : gmap string AgentConfig)
           (agent_name message : string) : M (option Reply) :=
  match agent_configs !! agent_name with
  | None => raise (ValueError ("Agent " +:+ agent_name +:+ " not found in configuration"))
  | Some config =>
      let runtime_arn := cfg_runtime_arn config in
      let region := cfg_region config in
      let ssm_path := cfg_ssm_idp_config_path config in
      bearer_token <- try_except
                        (idp_config <- fetch_ssm_parameter ssm_path region ;;
                         get_bearer_token idp_config)
                        (fun e => raise e) ;;
      let runtime_url := runtime_url region runtime_arn in
      session_id <- outside Uuid4 (fun tr => Ok (uuid4 env tr)) ;;
      let headers := auth_headers bearer_token session_id in
      let httpx_client := {| client_timeout := DEFAULT_TIMEOUT; client_headers := headers |} in
      agent_card <- get_agent_card httpx_client runtime_url ;;
      let config := {| httpx_client := httpx_client; streaming := false |} in
      let factory := {| factory_config := config |} in
      let client := factory_create factory agent_card in
      msg <- create_message message ;;
      events <- send_message client msg ;;
      ret (first_reply events)
  end.

End Host.

(** ** host_invocation_example.py: the reply decoder *)

(** [part.root.text]: only a text part has the attribute. *)
Definition part_text (p : Part) : Result string :=
  match root p with
  | TextPart text => Ok text
  | FilePart _ | DataPart _ => Raise (AttributeError "text")
  end.

(** The list comprehension of [format_agent_response]:
    [[msg.parts[0].root.text for msg in response.history
      if msg.role.value == 'agent' and msg.parts]]. *)
Fixpoint agent_messages (history : list Message) : Result (list string) :=
  match history with
  | [] => Ok []
  | msg :: history' =>
      if String.eqb (role_value (role msg)) "agent" then
        match parts msg with
        | p :: _ =>
            match part_text p with
            | Ok text =>
                match agent_messages history' with
                | Ok texts => Ok (text :: texts)
                | Raise e => Raise e
                end
            | Raise e => Raise e
            end
        | [] => agent_messages history'
        end
      else agent_messages history'
  end.

(** The part the two [if]s of [format_agent_response] reach:
    [response.artifacts[0].parts[0]], when both lists are non-empty. *)
Definition first_artifact_part (response : Task) : option Part :=
  match artifacts response with
  | Some (artifact :: _) =>
      match artifact_parts artifact with
      | p :: _ => Some p
      | [] => None
      end
  | _ => None
  end.

Definition format_agent_response (response : Task) : Result string :=
  match first_artifact_part response with
  | Some p => part_text p
  | None =>
      match agent_messages (history response) with
      | Ok texts => Ok (PyStr.concat texts)
      | Raise e => Raise e
      end
  end.

(** ** Concrete configurations and environments for the examples *)

Definition monitoring_config : AgentConfig :=
  {| cfg_name := "Monitoring_Agent";
     cfg_description := "Metrics, logs and alarms";
     cfg_region := "us-east-1";
     cfg_runtime_arn := "arn:aws:bedrock-agentcore:us-east-1:123456789012:runtime/monitoring_agent";
     cfg_ssm_idp_config_path := "/a2a/monitoring/idp" |}.

Definition ops_config : AgentConfig :=
  {| cfg_name := "OpsRemediation_Agent";
     cfg_description := "Remediation strategies";
     cfg_region := "us-east-1";
     cfg_runtime_arn := "arn:aws:bedrock-agentcore:us-east-1:123456789012:runtime/ops_agent";
     cfg_ssm_idp_config_path := "/a2a/ops/idp" |}.

Definition example_idp : IdpConfig :=
  {| domain := "agents-demo";
     user_pool_id := "us-east-1_AbCdEf_x";
     client_id := "client-1";
     client_secret := "secret-1";
     resource_server_identifier := "agents-api";
     scopes := Some ["read"; "write"] |}.

Definition example_card (url : string) : AgentCard :=
  {| card_name := "remote"; card_description := "a remote agent"; card_url := url |}.

(** Every service answers: the token endpoint with status 200 and a
    token, the runner with one event and no message to a sub-agent. *)
Definition example_env : Env :=
  {| config_agents := [monitoring_config; ops_config];
     ssm_get_parameter := fun _ _ _ => Ok example_idp;
     httpx_post := fun _ _ =>
       Ok {| status_code := 200;
             json_body := Some (JsonObject {[ "access_token" := "token-1" ]}) |};
     httpx_get_card := fun _ url _ => Ok (example_card url);
     remote_reply := fun _ _ _ m => Ok (RemoteMessage m);
     runner_run_async := fun _ _ _ _ _ =>
       {| run_sends := [];
          run_events := [ {| event_author := "root_agent"; event_text := "done" |} ];
          run_error := None |};
     today := fun _ => "2025-11-09";
     uuid4 := fun _ => "0f8fad5bd9cb469fa16570867728950e" |}.

(** The same, with a token endpoint that answers 401. *)
Definition unauthorized_env : Env :=
  {| config_agents := config_agents example_env;
     ssm_get_parameter := ssm_get_parameter example_env;
     httpx_post := fun _ _ => Ok {| status_code := 401; json_body := None |};
     httpx_get_card := httpx_get_card example_env;
     remote_reply := remote_reply example_env;
     runner_run_async := runner_run_async example_env;
     today := today example_env;
     uuid4 := uuid4 example_env |}.

(** The same as [example_env], with agent cards that can be fetched once
    only: a second GET of the same URL fails. *)
Definition fetch_once_env : Env :=
  {| config_agents := config_agents example_env;
     ssm_get_parameter := ssm_get_parameter example_env;
     httpx_post := httpx_post example_env;
     httpx_get_card := fun tr url _ =>
       if existsb (fun c => match c with
                            | CardGet url' _ => String.eqb url' url
                            | _ => false
                            end) tr
       then Raise (EnvError "ConnectError")
       else Ok (example_card url);
     remote_reply := remote_reply example_env;
     runner_run_async := runner_run_async example_env;
     today := today example_env;
     uuid4 := uuid4 example_env |}.

Definition text_part (s : string) : Part := {| root := TextPart s |}.

Definition example_task (h : list Message) (a : option (list Artifact)) : Task :=
  {| context_id := "ctx"; task_id := "task"; status_state := "completed";
     status_timestamp := "2025-11-09T00:00:00Z"; history := h; artifacts := a |}.

(** ** Predicates the statements use *)

(** A string without the character [c]. *)
Definition lacks (c : ascii) (s : string) : Prop := PyStr.contains_char c s = false.

(** An IDP configuration whose resource identifier and scope names are
    single tokens: none of them holds a space. *)
Definition valid_idp_config (idp_config : IdpConfig) : Prop :=
  lacks " " (resource_server_identifier idp_config) /\
  Forall (lacks " ") (default [] (scopes idp_config)).

(** The token [get_bearer_token] asks for one scope. *)
Definition scope_token (idp_config : IdpConfig) (scope : string) : string :=
  resource_server_identifier idp_config +:+ "/" +:+ scope.

(** [s] occurs in [t]. *)
Definition occurs_in (s t : string) : Prop :=
  exists before after, t = before +:+ s +:+ after.

(** The text content of a part and of a message, as the specification
    speaks of it: the text of the text parts, in order. *)
Definition part_text_content (p : Part) : string :=
  match root p with
  | TextPart text => text
  | FilePart _ | DataPart _ => EmptyString
  end.

Definition message_text_content (m : Message) : string :=
  PyStr.concat (map part_text_content (parts m)).

Definition is_agent (m : Message) : bool :=
  match role m with
  | agent => true
  | user => false
  end.

(** The fallback in the specification's words: the text content of the
    agent-role messages of the history, concatenated in history order. *)
Definition agent_history_text (history : list Message) : string :=
  PyStr.concat (map message_text_content (List.filter is_agent history)).

(** The text of the first part of a message, empty when it has no part. *)
Definition first_part_text (m : Message) : string :=
  match parts m with
  | p :: _ => part_text_content p
  | [] => EmptyString
  end.

(** The first part of the message, if any, is a text part. *)
Definition text_first (m : Message) : Prop :=
  match parts m with
  | p :: _ => exists text, root p = TextPart text
  | [] => True
  end.

(** The message has at most one part, a text part. *)
Definition single_text_part (m : Message) : Prop :=
  match parts m with
  | [] => True
  | [p] => exists text, root p = TextPart text
  | _ :: _ :: _ => False
  end.

(** No artifacts are present in the reply. *)
Definition no_artifacts (r : Task) : Prop :=
  artifacts r = None \/ artifacts r = Some [].

(** The decoding rule as the specification states it, at one reply. *)
Definition decodes_as_specified (r : Task) : Prop :=
  (forall a rest p ps,
      artifacts r = Some (a :: rest) -> artifact_parts a = p :: ps ->
      format_agent_response r = Ok (part_text_content p)) /\
  (no_artifacts r -> format_agent_response r = Ok (agent_history_text (history r))).


(** What the token endpoint's answer becomes in [get_bearer_token]. *)
Definition token_of_response (r : Result HttpResponse) : Result string :=
  match r with
  | Raise e => Raise e
  | Ok response =>
      if ((200 <=? status_code response) && (status_code response <? 300))%nat then
        match json_body response with
        | None => Raise (EnvError "JSONDecodeError")
        | Some (JsonObject body) =>
            match body !! "access_token" with
            | Some token => Ok token
            | None => Raise (KeyError "access_token")
            end
        | Some (JsonOther subscript_error) => Raise (TypeError subscript_error)
        end
      else Raise (HTTPStatusError (status_code response))
  end.

(** A reply whose only agent message has two text parts. *)
Definition two_part_reply : Task :=
  example_task
    [ {| role := user; parts := [text_part "question"]; message_id := "m1" |};
      {| role := agent; parts := [text_part "a"; text_part "b"]; message_id := "m2" |} ]
    (Some []).

(** A reply with neither artifacts nor history. *)
Definition empty_reply : Task := example_task [] None.

(** ** Reading the trace *)

(** The URLs of the agent-card fetches among some calls, in order. *)
Fixpoint card_gets (cs : list Call) : list string :=
  match cs with
  | [] => []
  | CardGet url _ :: cs' => url :: card_gets cs'
  | _ :: cs' => card_gets cs'
  end.

(** The token requests among some calls, in order. *)
Fixpoint token_posts (cs : list Call) : list HttpRequest :=
  match cs with
  | [] => []
  | TokenPost request :: cs' => request :: token_posts cs'
  | _ :: cs' => token_posts cs'
  end.

(** The calls of the initialisation: secret store, token endpoint, agent
    card.  The others run the runner or send a message to a sub-agent. *)
Definition is_init_call (c : Call) : bool :=
  match c with
  | SsmGetParameter _ _ | TokenPost _ | CardGet _ _ => true
  | RunnerRun _ _ _ _ | MessageSend _ _ _ | Uuid4 => false
  end.

(** A computation that leaves the globals and the yielded values alone
    and only makes calls that satisfy [P]. *)
Definition only_calls {A} (P : Call -> bool) (c : M A) : Prop :=
  forall w, exists cs, snd (c w) = add_calls cs w /\ forallb P cs = true.

(** The factory [create_simple_client_factory] builds around a token. *)
Definition session_factory (bearer_token session_id : string) : ClientFactory :=
  {| factory_config :=
       {| httpx_client := {| client_timeout := 300;
                             client_headers := auth_headers bearer_token session_id |};
          streaming := false |} |}.

(** The proxy [get_root_agent] registers for a configuration entry, before
    its resolution. *)
Definition registered_for (session_id : string) (agent_config : AgentConfig)
           (a : RemoteA2aAgent) : Prop :=
  exists bearer_token,
    a = new_remote_agent (registered_name agent_config) (cfg_description agent_config)
                         (agent_card_url agent_config)
                         (session_factory bearer_token session_id).

(** The same proxy once [_ensure_resolved] has succeeded. *)
Definition resolved_for (session_id : string) (agent_config : AgentConfig)
           (a : RemoteA2aAgent) : Prop :=
  exists bearer_token card,
    a = {| agent_name := registered_name agent_config;
           agent_description := cfg_description agent_config;
           _agent_card_source := Some (agent_card_url agent_config);
           _agent_card := Some card;
           _a2a_client_factory := session_factory bearer_token session_id;
           _a2a_client := Some (factory_create (session_factory bearer_token session_id) card);
           _is_resolved := true |}.

(** ** Reading a turn *)

Definition prompt_error : Exn := KeyError "'prompt' field is required in payload".

Definition session_error : Exn := Exception "Context session_id is not set".

(** The session service after [call_agent] has made sure the session
    exists. *)
Definition with_session (session_id : string) (w : World) : World :=
  if bool_decide ((APP_NAME, "Actor1", session_id) ∈ session_service w) then w
  else set_session_service ({[ (APP_NAME, "Actor1", session_id) ]} ∪ session_service w) w.

(** The calls one run of the runner adds. *)
Definition runner_calls (env : Env) (tr : list Call) (root : Agent) (session_id query : string)
  : list Call :=
  RunnerRun root "Actor1" session_id query ::
  map (fun s => MessageSend (fst (fst s)) (snd (fst s)) (snd s))
      (run_sends (runner_run_async env tr root "Actor1" session_id query)).

(** The value of a header. *)
Fixpoint header (key : string) (headers : list (string * string)) : option string :=
  match headers with
  | [] => None
  | (k, v) :: headers' => if String.eqb k key then Some v else header key headers'
  end.

(** The session a proxy's HTTP client announces to the remote agent. *)
Definition proxy_session (a : RemoteA2aAgent) : option string :=
  header "X-Amzn-Bedrock-AgentCore-Runtime-Session-Id"
         (client_headers (httpx_client (factory_config (_a2a_client_factory a)))).

(** Every proxy of [root] talks under the session [session_id]. *)
Definition bound_to_session (session_id : string) (root : Agent) : bool :=
  forallb (fun a => match proxy_session a with
                    | Some s => String.eqb s session_id
                    | None => false
                    end)
          (sub_agents root).


(** The claim about a missing prompt as the specification states it, at
    one turn: the prompt error is raised and nothing was called. *)
Definition raises_before_any_contact (env : Env) (payload : gmap string string)
           (session_id : string) (w : World) : Prop :=
  fst (run_turn env payload (Some session_id) w) = Raise prompt_error /\
  trace (snd (run_turn env payload (Some session_id) w)) = trace w.

(** The isolation of failures as the specification states it, at one
    turn: the turn does not raise, and every configured agent is still
    contacted. *)
Definition failure_isolated (env : Env) (payload : gmap string string)
           (session_id : string) (w : World) : Prop :=
  (forall e, fst (run_turn env payload (Some session_id) w) <> Raise e) /\
  Forall (fun c => In (SsmGetParameter (cfg_ssm_idp_config_path c) (cfg_region c))
                      (trace (snd (run_turn env payload (Some session_id) w))))
         (config_agents env).

(** The card of [url] is fetched at most once in a trace. *)
Definition fetched_at_most_once (url : string) (tr : list Call) : Prop :=
  length (List.filter (String.eqb url) (card_gets tr)) <= 1.

Definition example_payload : gmap string string := {[ "prompt" := "check the logs" ]}.

(** The world after a first turn in session [session-1]. *)
Definition after_first_turn : World :=
  snd (run_turn example_env example_payload (Some "session-1") initial_world).

(** The world after a second turn, in session [session-2]. *)
Definition after_second_turn : World :=
  snd (run_turn example_env example_payload (Some "session-2") after_first_turn).

(** The reply [send_sync_message] makes of an answer of the remote agent
    when the client does not stream: the message, or the final task. *)
Definition reply_of (response : RemoteResponse) : Reply :=
  match response with
  | RemoteMessage m => ReplyMessage m
  | RemoteTask _ final => ReplyTask final
  end.

Definition example_agent_configs : gmap string AgentConfig :=
  load_agent_configs (config_agents example_env) ∅.

(** ** More Python string operations *)

Module PyFmt.

(** [c.upper()] on one ASCII character. *)
Definition upper_char (c : ascii) : ascii :=
  let n := nat_of_ascii c in
  if ((97 <=? n) && (n <=? 122))%nat then ascii_of_nat (n - 32) else c.

(** [s.upper()]. *)
Fixpoint upper (s : string) : string :=
  match s with
  | EmptyString => EmptyString
  | String c s' => String (upper_char c) (upper s')
  end.

(** [s * n]. *)
Fixpoint repeat (s : string) (n : nat) : string :=
  match n with
  | O => EmptyString
  | S n' => s +:+ repeat s n'
  end.

(** [s[:n]]. *)
Fixpoint take (n : nat) (s : string) : string :=
  match n, s with
  | S n', String c s' => String c (take n' s')
  | _, _ => EmptyString
  end.

(** [s[n:]]. *)
Fixpoint drop (n : nat) (s : string) : string :=
  match n, s with
  | S n', String _ s' => drop n' s'
  | _, _ => s
  end.

(** [sub in s]. *)
Fixpoint contains (sub s : string) : bool :=
  if PyStr.startswith sub s then true
  else match s with
       | EmptyString => false
       | String _ s' => contains sub s'
       end.

(** [str(n)] for a natural number. *)
Definition str_of_nat (n : nat) : string := NilZero.string_of_uint (Nat.to_uint n).

(** [s.rjust(width)]. *)
Definition rjust (width : nat) (s : string) : string :=
  repeat " " (width - String.length s) +:+ s.

(** [f"{i:2d}"]. *)
Definition format_2d (i : nat) : string := rjust 2 (str_of_nat i).

End PyFmt.

(** ** host_invocation_example.py: the trace printer *)

(** Code that prints: the lines printed so far are threaded through, and
    stay printed when an exception is raised. *)
Definition Printer (A : Type) : Type := list string -> Result A * list string.

Definition print (line : string) : Printer unit := fun out => (Ok tt, (out ++ [line])%list).

Definition print_bind {A B} (c : Printer A) (k : A -> Printer B) : Printer B :=
  fun out =>
    match c out with
    | (Ok a, out') => k a out'
    | (Raise e, out') => (Raise e, out')
    end.

Definition print_result {A} (r : Result A) : Printer A := fun out => (r, out).

(** [text = msg.parts[0].root.text if msg.parts else "[No content]"]. *)
Definition trace_text (msg : Message) : Result string :=
  match parts msg with
  | p :: _ => part_text p
  | [] => Ok "[No content]"
  end.

(** [if len(text) > 80: text = text[:77] + "..."]. *)
Definition truncate_trace_text (text : string) : string :=
  if (80 <? String.length text)%nat then PyFmt.take 77 text +:+ "..." else text.

(** [final_text[:200] + "..." if len(final_text) > 200 else final_text]. *)
Definition truncate_final_text (final_text : string) : string :=
  if (200 <? String.length final_text)%nat then PyFmt.take 200 final_text +:+ "..."
  else final_text.

(** One line of the execution flow:
    [f"{i:2d}. {role_icon} {msg.role.value.upper()}: {text}"]. *)
Definition trace_line (i : nat) (msg : Message) (text : string) : string :=
  let role_icon := if String.eqb (role_value (role msg)) "user" then "👤" else "🤖" in
  PyFmt.format_2d i +:+ ". " +:+ role_icon +:+ " " +:+
  PyFmt.upper (role_value (role msg)) +:+ ": " +:+ text.

(** The loop [for i, msg in enumerate(response.history, 1)]. *)
Fixpoint print_flow (i : nat) (history : list Message) : Printer unit :=
  match history with
  | [] => print_result (Ok tt)
  | msg :: history' =>
      print_bind (print_result (trace_text msg)) (fun text =>
      let text := truncate_trace_text text in
      print_bind (print (trace_line i msg text)) (fun _ =>
      print_flow (S i) history'))
  end.

(** [response.artifacts[0].parts[0].root.text], with no check that the
    artifact has parts. *)
Definition final_artifact_text (artifact : Artifact) : Result string :=
  match artifact_parts artifact with
  | p :: _ => part_text p
  | [] => Raise (IndexError "list index out of range")
  end.

(** [format_agent_trace(response)]: what it prints, and how it ends. *)
Definition format_agent_trace (response : Task) : Printer unit :=
  print_bind (print (PyFmt.repeat "=" 60)) (fun _ =>
  print_bind (print "🔍 AGENT EXECUTION TRACE") (fun _ =>
  print_bind (print (PyFmt.repeat "=" 60)) (fun _ =>
  print_bind (print ("📋 Context ID: " +:+ context_id response)) (fun _ =>
  print_bind (print ("🆔 Task ID: " +:+ task_id response)) (fun _ =>
  print_bind (print ("📊 Status: " +:+ status_state response)) (fun _ =>
  print_bind (print ("⏰ Completed: " +:+ status_timestamp response)) (fun _ =>
  print_bind (print EmptyString) (fun _ =>
  print_bind (print "🔄 EXECUTION FLOW:") (fun _ =>
  print_bind (print (PyFmt.repeat "-" 40)) (fun _ =>
  print_bind (print_flow 1 (history response)) (fun _ =>
  print_bind (print EmptyString) (fun _ =>
  print_bind (print "✅ FINAL RESULT:") (fun _ =>
  print_bind (print (PyFmt.repeat "-" 40)) (fun _ =>
  print_bind
    match artifacts response with
    | Some (artifact :: _) =>
        print_bind (print_result (final_artifact_text artifact)) (fun final_text =>
        print (truncate_final_text final_text))
    | _ => print_result (Ok tt)
    end (fun _ =>
  print (PyFmt.repeat "=" 60)))))))))))))))).

(** A reply whose first artifact has no parts. *)
Definition empty_artifact_reply : Task :=
  example_task
    [ {| role := user; parts := [text_part "question"]; message_id := "m1" |};
      {| role := agent; parts := [text_part "answer"]; message_id := "m2" |} ]
    (Some [ {| artifact_parts := [] |} ]).

(** The text a flow line shows for a message whose first part, if any,
    is a text part. *)
Definition shown_text (msg : Message) : string :=
  truncate_trace_text
    match parts msg with
    | p :: _ => part_text_content p
    | [] => "[No content]"
    end.

(** The flow lines of a history, numbered from [i]. *)
Fixpoint flow_lines (i : nat) (history : list Message) : list string :=
  match history with
  | [] => []
  | msg :: history' => trace_line i msg (shown_text msg) :: flow_lines (S i) history'
  end.

(** The ten lines [format_agent_trace] prints before the flow. *)
Definition trace_header (response : Task) : list string :=
  [ PyFmt.repeat "=" 60; "🔍 AGENT EXECUTION TRACE"; PyFmt.repeat "=" 60;
    "📋 Context ID: " +:+ context_id response;
    "🆔 Task ID: " +:+ task_id response;
    "📊 Status: " +:+ status_state response;
    "⏰ Completed: " +:+ status_timestamp response;
    EmptyString; "🔄 EXECUTION FLOW:"; PyFmt.repeat "-" 40 ].

(** ** invoke_agent.py *)

(** The answer of [invoke_agent_runtime], as [invoke_agent] reads it:
    [contentType] (optional), and the body, read line by line with
    [iter_lines] on one branch and chunk by chunk on another. *)
Record RuntimeResponse := {
  contentType : option string;
  body_lines : list string;
  body_chunks : list string
}.

Section InvokeAgent.

(** Parsed JSON values, and [json.loads]. *)
Variable Json : Type.
Variable json_loads : string -> Result Json.

(** [agent_core_client.invoke_agent_runtime(agentRuntimeArn=...,
    runtimeSessionId=..., payload=...)]; the payload is the JSON object
    with the one key [prompt]. *)
Variable invoke_agent_runtime : string -> string -> string -> Result RuntimeResponse.

(** [str(uuid4())]. *)
Variable fresh_uuid : string.

(** What [invoke_agent] returns. *)
Inductive Returned :=
| RetText (content : string)
| RetJson (result : Json)
| RetResponse (response : RuntimeResponse).

(** What [invoke_agent] prints. *)
Inductive Printed :=
| PText (line : string)
| PJson (result : Json)
| PResponse (response : RuntimeResponse).

(** The loop over [response["response"].iter_lines(chunk_size=10)]:
    [content] is the list built so far, [printed] what was printed. *)
Fixpoint read_event_stream (lines content : list string) (printed : list Printed)
  : list string * list Printed :=
  match lines with
  | [] => (content, printed)
  | line :: lines' =>
      match line with
      | EmptyString => read_event_stream lines' content printed
      | String _ _ =>
          if PyStr.startswith "data: " line
          then
            let line := PyFmt.drop 6 line in
            read_event_stream lines' (content ++ [line]) (printed ++ [PText line])
          else read_event_stream lines' content printed
      end
  end.

Definition invoke_agent (agent_arn prompt : string) (session_id : option string)
  : Result Returned * list Printed :=
  let session_id := match session_id with
                    | Some (String c s) => String c s
                    | _ => fresh_uuid
                    end in
  match invoke_agent_runtime agent_arn session_id prompt with
  | Raise e => (Raise e, [])
  | Ok response =>
      if PyFmt.contains "text/event-stream" (default EmptyString (contentType response))
      then
        let '(content, printed) := read_event_stream (body_lines response) [] [] in
        (Ok (RetText (PyStr.join nl content)),
         (printed ++ [PText (nl +:+ "Complete response: " +:+ PyStr.join nl content)])%list)
      else if bool_decide (contentType response = Some "application/json")
      then
        match json_loads (PyStr.concat (body_chunks response)) with
        | Ok result => (Ok (RetJson result), [PJson result])
        | Raise e => (Raise e, [])
        end
      else (Ok (RetResponse response), [PResponse response])
  end.

End InvokeAgent.

Arguments RetText {Json} content.
Arguments RetJson {Json} result.
Arguments RetResponse {Json} response.
Arguments PText {Json} line.
Arguments PJson {Json} result.
Arguments PResponse {Json} response.

(** The session id [invoke_agent] passes on. *)
Definition effective_session (fresh_uuid : string) (session_id : option string) : string :=
  match session_id with
  | Some (String c s) => String c s
  | _ => fresh_uuid
  end.

(** The payloads of the [data: ] lines of a stream, in order. *)
Definition data_payloads (lines : list string) : list string :=
  map (PyFmt.drop 6) (List.filter (PyStr.startswith "data: ") lines).

(** A runtime that answers every call with one response, and a JSON
    parser that accepts only the text [null] (parsed to [tt]). *)
Definition constant_runtime (response : RuntimeResponse)
  : string -> string -> string -> Result RuntimeResponse :=
  fun _ _ _ => Ok response.

Definition null_only_json (s : string) : Result unit :=
  if String.eqb s "null" then Ok tt else Raise (EnvError "JSONDecodeError").

(** ** host_agent_bedrock.py: API keys *)

(** [config_data['ssm_parameters']]: both keys are read with [.get]. *)
Record SsmParametersConfig := {
  ssm_region : option string;
  ssm_parameter_paths : option (gmap string string)
}.

(** [config_data], of which only [ssm_parameters] is read. *)
Record ConfigData := { ssm_parameters : option SsmParametersConfig }.

Section ApiKeys.

(** [boto3.client('ssm', region_name=...).get_parameter(Name=...,
    WithDecryption=...)['Parameter']['Value']], by name, region and
    decryption flag. *)
Variable ssm_value : string -> string -> bool -> Result string.

(** [get_parameter_from_ssm]: a ClientError is logged and raised again. *)
Definition get_parameter_from_ssm (parameter_name region_name : string) (decrypt : bool)
  : Result string :=
  match ssm_value parameter_name region_name decrypt with
  | Ok value => Ok value
  | Raise e => Raise e
  end.

(** [key_mapping.items()]. *)
Definition key_mapping : list (string * string) := [ ("GOOGLE_API_KEY", "google_api_key") ].

(** [value = os.getenv(env_var); if value: api_keys[env_var] = value]. *)
Definition key_from_environment (environ : gmap string string) (env_var : string)
           (api_keys : gmap string string) : gmap string string :=
  match environ !! env_var with
  | Some (String c v) => <[env_var := String c v]> api_keys
  | _ => api_keys
  end.

(** The body of the loop of [load_api_keys_from_ssm], with its
    [try]/[except]. *)
Definition load_one_key (environ : gmap string string) (region : string)
           (parameters : gmap string string) (api_keys : gmap string string)
           (entry : string * string) : gmap string string :=
  let '(env_var, param_key) := entry in
  match parameters !! param_key with
  | Some (String c path) =>
      match get_parameter_from_ssm (String c path) region true with
      | Ok value => <[env_var := value]> api_keys
      | Raise _ => key_from_environment environ env_var api_keys
      end
  | _ => key_from_environment environ env_var api_keys
  end.

Definition load_api_keys_from_ssm (environ : gmap string string) (config_data : ConfigData)
  : gmap string string :=
  let ssm_config := default {| ssm_region := None; ssm_parameter_paths := None |}
                            (ssm_parameters config_data) in
  let region := default "us-west-2" (ssm_region ssm_config) in
  let parameters := default ∅ (ssm_parameter_paths ssm_config) in
  fold_left (load_one_key environ region parameters) key_mapping ∅.

(** [initialize_api_keys]: the keys it returns, and [os.environ]
    afterwards (printing left out). *)
Definition initialize_api_keys (environ : gmap string string) (config_data : ConfigData)
  : gmap string string * gmap string string :=
  let api_keys := load_api_keys_from_ssm environ config_data in
  match api_keys !! "GOOGLE_API_KEY" with
  | Some (String c v) => (api_keys, <["GOOGLE_API_KEY" := String c v]> environ)
  | _ => (api_keys, environ)
  end.

End ApiKeys.

(** The path configured for the Google key, when it is a non-empty
    string, and the region the parameter store is asked in. *)
Definition configured_key_path (config_data : ConfigData) : option string :=
  match ssm_parameters config_data with
  | Some ssm_config =>
      match ssm_parameter_paths ssm_config with
      | Some parameters =>
          match parameters !! "google_api_key" with
          | Some (String c path) => Some (String c path)
          | _ => None
          end
      | None => None
      end
  | None => None
  end.

Definition configured_region (config_data : ConfigData) : string :=
  match ssm_parameters config_data with
  | Some ssm_config => default "us-west-2" (ssm_region ssm_config)
  | None => "us-west-2"
  end.


Definition example_config_data : ConfigData :=
  {| ssm_parameters :=
       Some {| ssm_region := None;
               ssm_parameter_paths := Some {[ "google_api_key" := "/host/google-api-key" ]} |} |}.


(** * Theorems *)

(** ** Strings *)

Lemma append_nil (b : string) : EmptyString +:+ b = b.
Proof. reflexivity. Qed.

Lemma append_cons (c : ascii) (a b : string) : String c a +:+ b = String c (a +:+ b).
Proof. reflexivity. Qed.

#[local] Arguments Ascii.eqb : simpl never.

Ltac string_simpl := simpl; rewrite ?append_cons, ?append_nil; simpl.

Lemma append_assoc (a b c : string) : (a +:+ b) +:+ c = a +:+ (b +:+ c).
Proof. induction a as [|x a IH]; string_simpl; [reflexivity | now rewrite IH]. Qed.

Lemma append_empty_r (a : string) : a +:+ EmptyString = a.
Proof. induction a as [|x a IH]; string_simpl; [reflexivity | now rewrite IH]. Qed.

Lemma contains_char_app c a b :
  PyStr.contains_char c (a +:+ b) = PyStr.contains_char c a || PyStr.contains_char c b.
Proof.
  induction a as [|x a IH]; string_simpl; [reflexivity |].
  destruct (Ascii.eqb x c); [reflexivity | exact IH].
Qed.

Lemma lacks_app c a b : lacks c a -> lacks c b -> lacks c (a +:+ b).
Proof. unfold lacks. intros Ha Hb. now rewrite contains_char_app, Ha, Hb. Qed.

Lemma split_fields_lacks sep s : lacks sep s -> PyStr.split_fields sep s = (s, []).
Proof.
  unfold lacks. induction s as [|c s IH]; simpl; [reflexivity |].
  destruct (Ascii.eqb c sep); [discriminate |].
  intros H. now rewrite (IH H).
Qed.

Lemma split_fields_sep sep a r :
  lacks sep a ->
  PyStr.split_fields sep (a +:+ String sep r) = (a, PyStr.split sep r).
Proof.
  unfold lacks, PyStr.split. induction a as [|c a IH]; string_simpl.
  - intros _. destruct (PyStr.split_fields sep r) as [f fs].
    now rewrite Ascii.eqb_refl.
  - destruct (Ascii.eqb c sep); [discriminate |].
    intros H. rewrite (IH H). now destruct (PyStr.split_fields sep r).
Qed.

(** Splitting at the separator undoes joining with it, for a non-empty
    list of fields that do not hold the separator. *)
Lemma split_join sep (l : list string) :
  l <> [] -> Forall (lacks sep) l ->
  PyStr.split sep (PyStr.join (String sep EmptyString) l) = l.
Proof.
  induction l as [|x l IH]; [congruence |].
  intros _ Hall. inversion Hall as [|? ? Hx Hl]; subst.
  destruct l as [|y l].
  - simpl. unfold PyStr.split. now rewrite (split_fields_lacks _ _ Hx).
  - change (PyStr.join (String sep EmptyString) (x :: y :: l))
      with (x +:+ String sep (PyStr.join (String sep EmptyString) (y :: l))).
    unfold PyStr.split at 1. rewrite (split_fields_sep _ _ _ Hx).
    rewrite IH; [reflexivity | discriminate | exact Hl].
Qed.

(** The first field of a split is the prefix before the first separator. *)
Lemma split_first_prefix sep s :
  exists rest,
    s = fst (PyStr.split_fields sep s) +:+ rest /\
    lacks sep (fst (PyStr.split_fields sep s)) /\
    (rest = EmptyString \/ exists r, rest = String sep r).
Proof.
  induction s as [|c s (rest & Hs & Hl & Hr)]; simpl.
  - exists EmptyString. repeat split; auto.
  - destruct (PyStr.split_fields sep s) as [f fs] eqn:E. simpl in *.
    destruct (Ascii.eqb_spec c sep) as [->|Hne]; simpl.
    + exists (String sep s). repeat split; eauto.
    + exists rest. repeat split; [rewrite append_cons; now rewrite <- Hs | | exact Hr].
      unfold lacks in *. simpl. destruct (Ascii.eqb_spec c sep); [contradiction | exact Hl].
Qed.

Lemma split_cons sep s :
  PyStr.split sep s = fst (PyStr.split_fields sep s) :: snd (PyStr.split_fields sep s).
Proof. unfold PyStr.split. now destruct (PyStr.split_fields sep s). Qed.

Lemma replace_underscore_id s : PyStr.replace "_" "_" s = s.
Proof.
  unfold PyStr.replace.
  induction s as [|c s IH]; simpl; [reflexivity |].
  destruct (Ascii.eqb "_" c) eqn:E.
  - apply Ascii.eqb_eq in E. subst c. string_simpl. now rewrite IH.
  - now rewrite IH.
Qed.

Lemma rstrip_app c a b :
  PyStr.rstrip c b <> EmptyString ->
  PyStr.rstrip c (a +:+ b) = a +:+ PyStr.rstrip c b.
Proof.
  intros Hb. induction a as [|x a IH]; string_simpl; [reflexivity |].
  rewrite IH. destruct (a +:+ PyStr.rstrip c b) eqn:E; [| reflexivity].
  destruct a; [rewrite append_nil in E; contradiction | discriminate].
Qed.

Example lower_example : PyStr.lower "OpsRemediation_Agent" = "opsremediation_agent".
Proof. reflexivity. Qed.

Example split_example :
  PyStr.split "_" "us-east-1_AbC_d" = ["us-east-1"; "AbC"; "d"].
Proof. reflexivity. Qed.

Example split_trailing_example : PyStr.split "_" "a_" = ["a"; EmptyString].
Proof. reflexivity. Qed.

Example split_empty_example : PyStr.split "_" EmptyString = [EmptyString].
Proof. reflexivity. Qed.

Example replace_example : PyStr.replace "ab" "x" "ababcab" = "xxcx".
Proof. reflexivity. Qed.

Example replace_overlap_example : PyStr.replace "aa" "b" "aaa" = "ba".
Proof. reflexivity. Qed.

Example rstrip_example : PyStr.rstrip "/" "a/b//" = "a/b".
Proof. reflexivity. Qed.

Example quote_example :
  PyStr.quote "arn:aws:x/y_z-1 ~" = "arn%3Aaws%3Ax%2Fy_z-1%20~".
Proof. reflexivity. Qed.

Example join_example : PyStr.join ", " ["a"; "b"; "c"] = "a, b, c".
Proof. reflexivity. Qed.

(** ** The credential provider *)

Lemma scope_token_lacks_space idp_config scope :
  lacks " " (resource_server_identifier idp_config) ->
  lacks " " scope ->
  lacks " " (scope_token idp_config scope).
Proof.
  intros Hr Hs. unfold scope_token.
  apply lacks_app; [exact Hr |]. apply lacks_app; [reflexivity | exact Hs].
Qed.

Lemma scope_str_join idp_config :
  scope_str idp_config =
  PyStr.join " " (map (scope_token idp_config) (default [] (scopes idp_config))).
Proof. reflexivity. Qed.

(** C2. For a valid IDP configuration with N scopes, the scope string
    [get_bearer_token] builds is the space-separated join of exactly N
    tokens, the i-th being [resource_server_identifier/scope_i]: it is
    empty for no scope, and otherwise splitting it at spaces gives back
    the N tokens in the order of the scopes. *)
Theorem scope_str_tokens (idp_config : IdpConfig) :
  valid_idp_config idp_config ->
  let scopes := default [] (scopes idp_config) in
  let tokens := map (scope_token idp_config) scopes in
  scope_str idp_config = PyStr.join " " tokens /\
  length tokens = length scopes /\
  (scopes = [] -> scope_str idp_config = EmptyString) /\
  (scopes <> [] -> PyStr.split " " (scope_str idp_config) = tokens).
Proof.
  intros [Hrs Hscopes] l tokens. subst tokens.
  split; [apply scope_str_join |].
  split; [apply length_map |].
  split.
  - intros El. rewrite scope_str_join. fold l. now rewrite El.
  - intros Hne. rewrite scope_str_join. fold l.
    apply (split_join " ").
    + destruct l; [congruence | discriminate].
    + apply Forall_map.
      eapply Forall_impl; [exact Hscopes |].
      intros scope Hs. now apply scope_token_lacks_space.
Qed.

Lemma example_idp_valid : valid_idp_config example_idp.
Proof. split; [reflexivity |]. repeat constructor. Qed.

Lemma scope_str_tokens_witness :
  PyStr.split " " (scope_str example_idp) = ["agents-api/read"; "agents-api/write"].
Proof.
  assert (Hvalid : valid_idp_config example_idp)
    by (split; [reflexivity | repeat constructor]).
  destruct (scope_str_tokens example_idp Hvalid) as (_ & _ & _ & H).
  apply H. discriminate.
Defined.

Example scope_str_no_scope :
  scope_str {| domain := "d"; user_pool_id := "r_1"; client_id := "c"; client_secret := "s";
               resource_server_identifier := "api"; scopes := None |} = EmptyString.
Proof. reflexivity. Qed.

(** Without validity the tokens cannot be read back: a scope name that
    holds a space splits in two. *)
Example scope_str_with_space :
  PyStr.split " " (scope_str {| domain := "d"; user_pool_id := "r_1"; client_id := "c";
                                 client_secret := "s"; resource_server_identifier := "api";
                                 scopes := Some ["a b"] |}) = ["api/a"; "b"].
Proof. reflexivity. Qed.

Lemma lift_result_run {A} (r : Result A) (w : World) : lift_result r w = (r, w).
Proof. now destruct r. Qed.

Lemma outside_run {A} (c : Call) (f : list Call -> Result A) (w : World) :
  outside c f w = (f (trace w), add_call c w).
Proof. unfold outside. apply lift_result_run. Qed.

Lemma idp_region_run idp_config :
  idp_region idp_config = ret (fst (PyStr.split_fields "_" (user_pool_id idp_config))).
Proof. unfold idp_region. now rewrite split_cons. Qed.

(** [get_bearer_token] makes one call, the POST, whatever the answer. *)
Lemma get_bearer_token_run env idp_config w :
  let request :=
    token_request idp_config (fst (PyStr.split_fields "_" (user_pool_id idp_config))) in
  get_bearer_token env idp_config w =
  (token_of_response (httpx_post env (trace w) request), add_call (TokenPost request) w).
Proof.
  intros request. unfold get_bearer_token. rewrite idp_region_run.
  unfold bind at 1. unfold ret at 1. fold request.
  unfold bind at 1. rewrite outside_run.
  destruct (httpx_post env (trace w) request) as [response|e]; [| reflexivity].
  unfold bind, raise_for_status, token_of_response.
  destruct ((200 <=? status_code response) && (status_code response <? 300))%nat;
    [| reflexivity].
  unfold ret, response_json.
  destruct (json_body response) as [[body|subscript_error]|]; [| reflexivity | reflexivity].
  unfold ret, getitem. now destruct (body !! "access_token").
Qed.

(** C9. [get_bearer_token] makes one POST to
    [https://{domain}.auth.{region}.amazoncognito.com/oauth2/token], where
    [region] is the prefix of [user_pool_id] before its first underscore
    (all of it when there is none); the request is form-encoded and its
    body holds [grant_type=client_credentials], the client id, the client
    secret and the scope string; when the answer is a 2xx whose JSON body
    has an [access_token] field, that field is returned. *)
Theorem get_bearer_token_request (env : Env) (idp_config : IdpConfig) (w : World) :
  exists region rest,
    user_pool_id idp_config = region +:+ rest /\
    lacks "_" region /\
    (rest = EmptyString \/ exists r, rest = String "_" r) /\
    let request :=
      {| req_url := "https://" +:+ domain idp_config +:+ ".auth." +:+ region +:+
                    ".amazoncognito.com/oauth2/token";
         req_data := [ ("grant_type", "client_credentials");
                       ("client_id", client_id idp_config);
                       ("client_secret", client_secret idp_config);
                       ("scope", scope_str idp_config) ];
         req_headers := [("Content-Type", "application/x-www-form-urlencoded")];
         req_timeout := 30 |} in
    trace (snd (get_bearer_token env idp_config w)) = (trace w ++ [TokenPost request])%list /\
    forall response body token,
      httpx_post env (trace w) request = Ok response ->
      (200 <= status_code response < 300)%nat ->
      json_body response = Some (JsonObject body) ->
      body !! "access_token" = Some token ->
      fst (get_bearer_token env idp_config w) = Ok token.
Proof.
  destruct (split_first_prefix "_" (user_pool_id idp_config)) as (rest & Hs & Hl & Hr).
  exists (fst (PyStr.split_fields "_" (user_pool_id idp_config))), rest.
  split; [exact Hs |]. split; [exact Hl |]. split; [exact Hr |].
  intros request. rewrite get_bearer_token_run. simpl. split; [reflexivity |].
  intros response body token Hpost [Hlo Hhi] Hbody Htoken.
  change (token_request idp_config (fst (PyStr.split_fields "_" (user_pool_id idp_config))))
    with request.
  rewrite Hpost. unfold token_of_response.
  apply Nat.leb_le in Hlo. apply Nat.ltb_lt in Hhi.
  now rewrite Hlo, Hhi, Hbody, Htoken.
Qed.

Example get_bearer_token_example :
  get_bearer_token example_env example_idp initial_world =
  (Ok "token-1",
   add_call (TokenPost
     {| req_url := "https://agents-demo.auth.us-east-1.amazoncognito.com/oauth2/token";
        req_data := [ ("grant_type", "client_credentials"); ("client_id", "client-1");
                      ("client_secret", "secret-1");
                      ("scope", "agents-api/read agents-api/write") ];
        req_headers := [("Content-Type", "application/x-www-form-urlencoded")];
        req_timeout := 30 |}) initial_world).
Proof. reflexivity. Qed.

Example get_bearer_token_unauthorized :
  fst (get_bearer_token unauthorized_env example_idp initial_world) = Raise (HTTPStatusError 401).
Proof. reflexivity. Qed.

(** ** The reply decoder *)

Lemma is_agent_role_value m :
  String.eqb (role_value (role m)) "agent" = is_agent m.
Proof. unfold is_agent. now destruct (role m). Qed.

Lemma part_text_of_text p text : root p = TextPart text -> part_text p = Ok text.
Proof. unfold part_text. now intros ->. Qed.

(** On a history whose agent messages start with a text part, the list
    comprehension collects the first texts of the agent messages that
    have parts, in order. *)
Lemma agent_messages_first_texts (h : list Message) :
  Forall (fun m => is_agent m = true -> text_first m) h ->
  exists texts,
    agent_messages h = Ok texts /\
    PyStr.concat texts = PyStr.concat (map first_part_text (List.filter is_agent h)).
Proof.
  induction h as [|m h IH]; intros Hall.
  - exists []. split; reflexivity.
  - inversion Hall as [|? ? Hm Hh]; subst.
    destruct (IH Hh) as (texts & Hrun & Hcat).
    simpl. rewrite is_agent_role_value.
    destruct (is_agent m) eqn:Em; [| now exists texts].
    specialize (Hm eq_refl). unfold text_first in Hm.
    simpl. unfold first_part_text at 1.
    destruct (parts m) as [|p ps] eqn:Ep.
    + exists texts. split; [exact Hrun |]. now rewrite append_nil.
    + destruct Hm as [text Ht]. rewrite (part_text_of_text _ _ Ht), Hrun.
      exists (text :: texts). split; [reflexivity |]. simpl.
      unfold part_text_content. rewrite Ht. now rewrite Hcat.
Qed.

Lemma single_text_part_first m : single_text_part m -> text_first m.
Proof.
  unfold single_text_part, text_first.
  destruct (parts m) as [|p [|q ps]]; auto. contradiction.
Qed.

Lemma single_text_part_content m :
  single_text_part m -> message_text_content m = first_part_text m.
Proof.
  unfold single_text_part, message_text_content, first_part_text.
  destruct (parts m) as [|p [|q ps]]; [reflexivity | | contradiction].
  intros _. simpl. apply append_empty_r.
Qed.

Lemma agent_history_text_single (h : list Message) :
  Forall (fun m => is_agent m = true -> single_text_part m) h ->
  agent_history_text h = PyStr.concat (map first_part_text (List.filter is_agent h)).
Proof.
  unfold agent_history_text. induction h as [|m h IH]; intros Hall; [reflexivity |].
  inversion Hall as [|? ? Hm Hh]; subst. simpl.
  destruct (is_agent m) eqn:Em; [| now apply IH].
  simpl. rewrite (single_text_part_content _ (Hm eq_refl)). now rewrite (IH Hh).
Qed.

Lemma no_artifacts_first_part r : no_artifacts r -> first_artifact_part r = None.
Proof. unfold first_artifact_part. now intros [-> | ->]. Qed.

(** C1, as amended. The decoder returns the text of artifact[0].parts[0]
    whenever the artifacts list is non-empty and the first part of its
    first artifact is a text part.  When no artifacts are present (and the
    agent messages start with text parts) it returns the concatenation, in
    history order, of the text of the FIRST part of every agent-role
    message that has parts; that is the text content of all agent-role
    messages when each of them has at most one part. *)
Theorem format_agent_response_decodes (r : Task) :
  (forall a rest p ps text,
      artifacts r = Some (a :: rest) -> artifact_parts a = p :: ps ->
      root p = TextPart text ->
      format_agent_response r = Ok text) /\
  (no_artifacts r ->
   Forall (fun m => is_agent m = true -> text_first m) (history r) ->
   format_agent_response r =
   Ok (PyStr.concat (map first_part_text (List.filter is_agent (history r))))) /\
  (no_artifacts r ->
   Forall (fun m => is_agent m = true -> single_text_part m) (history r) ->
   format_agent_response r = Ok (agent_history_text (history r))).
Proof.
  split; [| split].
  - intros a rest p ps text Ha Hp Ht. unfold format_agent_response, first_artifact_part.
    rewrite Ha, Hp. now apply part_text_of_text.
  - intros Hno Hall. unfold format_agent_response.
    rewrite (no_artifacts_first_part _ Hno).
    destruct (agent_messages_first_texts _ Hall) as (texts & -> & ->). reflexivity.
  - intros Hno Hall. unfold format_agent_response.
    rewrite (no_artifacts_first_part _ Hno).
    rewrite (agent_history_text_single _ Hall).
    assert (Hfirst : Forall (fun m => is_agent m = true -> text_first m) (history r)).
    { eapply Forall_impl; [exact Hall |]. intros m H Hm. apply single_text_part_first; auto. }
    destruct (agent_messages_first_texts _ Hfirst) as (texts & -> & ->). reflexivity.
Qed.

(** C1, counterexample. With no artifacts and one agent message of two
    text parts [a] and [b], the decoder returns [a], not the text content
    [ab] of the message. *)
Lemma two_part_reply_not_as_specified : ~ decodes_as_specified two_part_reply.
Proof.
  intros [_ H]. specialize (H (or_intror eq_refl)).
  vm_compute in H. discriminate H.
Qed.

Example two_part_reply_decoded :
  format_agent_response two_part_reply = Ok "a" /\
  agent_history_text (history two_part_reply) = "ab".
Proof. split; reflexivity. Qed.

Example artifact_reply_decoded :
  format_agent_response
    (example_task [ {| role := agent; parts := [text_part "trace"]; message_id := "m" |} ]
                  (Some [ {| artifact_parts := [text_part "answer"; text_part "more"] |} ]))
  = Ok "answer".
Proof. reflexivity. Qed.

Example history_reply_decoded :
  format_agent_response
    (example_task [ {| role := agent; parts := [text_part "one "]; message_id := "m1" |};
                    {| role := user; parts := [text_part "skipped"]; message_id := "m2" |};
                    {| role := agent; parts := []; message_id := "m3" |};
                    {| role := agent; parts := [text_part "two"]; message_id := "m4" |} ]
                  (Some []))
  = Ok "one two".
Proof. reflexivity. Qed.





Example empty_reply_decoded : format_agent_response empty_reply = Ok EmptyString.
Proof. reflexivity. Qed.

Example file_part_reply_raises :
  format_agent_response
    (example_task [] (Some [ {| artifact_parts := [ {| root := FilePart "report.pdf" |} ] |} ]))
  = Raise (AttributeError "text").
Proof. reflexivity. Qed.

(** ** Worlds and traces *)

Lemma add_calls_nil w : add_calls [] w = w.
Proof. destruct w. unfold add_calls. simpl. now rewrite app_nil_r. Qed.

Lemma add_calls_app cs1 cs2 w : add_calls cs2 (add_calls cs1 w) = add_calls (cs1 ++ cs2) w.
Proof. unfold add_calls. simpl. now rewrite app_assoc. Qed.

Lemma add_call_calls c w : add_call c w = add_calls [c] w.
Proof. reflexivity. Qed.

Lemma add_calls_cons c cs w : add_calls (c :: cs) w = add_calls cs (add_call c w).
Proof. rewrite add_call_calls, add_calls_app. reflexivity. Qed.

Lemma card_gets_app cs1 cs2 : card_gets (cs1 ++ cs2) = (card_gets cs1 ++ card_gets cs2)%list.
Proof.
  induction cs1 as [|c cs1 IH]; [reflexivity |].
  destruct c; simpl; rewrite ?IH; reflexivity.
Qed.

Lemma token_posts_app cs1 cs2 :
  token_posts (cs1 ++ cs2) = (token_posts cs1 ++ token_posts cs2)%list.
Proof.
  induction cs1 as [|c cs1 IH]; [reflexivity |].
  destruct c; simpl; rewrite ?IH; reflexivity.
Qed.

(** ** The monad: which calls a computation can make *)

Lemma only_calls_ret {A} P (a : A) : only_calls P (ret a).
Proof. intros w. exists []. now rewrite add_calls_nil. Qed.

Lemma only_calls_raise {A} P e : only_calls P (@raise A e).
Proof. intros w. exists []. now rewrite add_calls_nil. Qed.

Lemma only_calls_bind {A B} P (c : M A) (k : A -> M B) :
  only_calls P c -> (forall a, only_calls P (k a)) -> only_calls P (bind c k).
Proof.
  intros Hc Hk w. unfold bind.
  destruct (Hc w) as (cs1 & E1 & F1).
  destruct (c w) as [[a|e] w1]; simpl in E1; subst w1.
  - destruct (Hk a (add_calls cs1 w)) as (cs2 & E2 & F2).
    exists (cs1 ++ cs2)%list. rewrite E2, add_calls_app, forallb_app, F1, F2. now split.
  - now exists cs1.
Qed.

Lemma only_calls_try {A} P (c : M A) (h : Exn -> M A) :
  only_calls P c -> (forall e, only_calls P (h e)) -> only_calls P (try_except c h).
Proof.
  intros Hc Hh w. unfold try_except.
  destruct (Hc w) as (cs1 & E1 & F1).
  destruct (c w) as [[a|e] w1]; simpl in E1; subst w1.
  - now exists cs1.
  - destruct (Hh e (add_calls cs1 w)) as (cs2 & E2 & F2).
    exists (cs1 ++ cs2)%list. rewrite E2, add_calls_app, forallb_app, F1, F2. now split.
Qed.

Lemma only_calls_outside {A} (P : Call -> bool) c (f : list Call -> Result A) :
  P c = true -> only_calls P (outside c f).
Proof.
  intros Hc w. exists [c]. rewrite outside_run. simpl. now rewrite Hc.
Qed.

Lemma only_calls_ask {A} P (f : list Call -> A) : only_calls P (ask f).
Proof. intros w. exists []. now rewrite add_calls_nil. Qed.

Lemma only_calls_get_bearer_token env idp_config :
  only_calls is_init_call (get_bearer_token env idp_config).
Proof. intros w. rewrite get_bearer_token_run. eexists [TokenPost _]. split; reflexivity. Qed.

Lemma only_calls_create env agent_config session_id :
  only_calls is_init_call (create_simple_client_factory env agent_config session_id).
Proof.
  unfold create_simple_client_factory.
  apply only_calls_bind; [now apply only_calls_outside | intros idp_config].
  apply only_calls_bind; [apply only_calls_get_bearer_token | intros token].
  apply only_calls_bind; [now apply only_calls_outside | intros card].
  apply only_calls_ret.
Qed.

Lemma only_calls_build env configs session_id sub_agents :
  only_calls is_init_call (build_sub_agents env configs session_id sub_agents).
Proof.
  revert sub_agents. induction configs as [|c configs IH]; intros sub_agents; simpl.
  - apply only_calls_ret.
  - apply only_calls_bind; [apply only_calls_create | intros fc]. apply IH.
Qed.

Lemma only_calls_ensure_resolved env a : only_calls is_init_call (_ensure_resolved env a).
Proof.
  unfold _ensure_resolved. destruct (_is_resolved a); [apply only_calls_ret |].
  apply only_calls_try; [| intros e; apply only_calls_raise].
  apply only_calls_bind; [| intros card; apply only_calls_ret].
  destruct (_agent_card a); [apply only_calls_ret |].
  destruct (_agent_card_source a); [now apply only_calls_outside | apply only_calls_raise].
Qed.

Lemma only_calls_get_agents_cards env sub_agents resolved agents_info :
  only_calls is_init_call (get_agents_cards env sub_agents resolved agents_info).
Proof.
  revert resolved agents_info.
  induction sub_agents as [|a sub_agents IH]; intros resolved agents_info; simpl.
  - apply only_calls_ret.
  - apply only_calls_bind; [apply only_calls_ensure_resolved | intros a']. apply IH.
Qed.

Lemma only_calls_get_agent_and_card env session_id actor_id :
  only_calls is_init_call (get_agent_and_card env session_id actor_id).
Proof.
  unfold get_agent_and_card, get_root_agent.
  apply only_calls_bind.
  - apply only_calls_bind; [apply only_calls_build | intros subs].
    apply only_calls_bind; [apply only_calls_ask | intros date]. apply only_calls_ret.
  - intros root. apply only_calls_bind; [apply only_calls_get_agents_cards | intros ra].
    apply only_calls_ret.
Qed.

Lemma add_calls_inj cs1 cs2 w : add_calls cs1 w = add_calls cs2 w -> cs1 = cs2.
Proof.
  intros H. apply (f_equal trace) in H. simpl in H. now apply app_inv_head in H.
Qed.

(** ** The card resolver and the client factory *)

Lemma append_nonempty_r (a b : string) : b <> EmptyString -> a +:+ b <> EmptyString.
Proof. destruct a; [now rewrite append_nil | discriminate]. Qed.

Lemma rstrip_app_nonempty c a b :
  PyStr.rstrip c b <> EmptyString -> PyStr.rstrip c (a +:+ b) <> EmptyString.
Proof. intros H. rewrite (rstrip_app _ _ _ H). now apply append_nonempty_r. Qed.

(** The card URL handed to a proxy is the URL the resolver of
    [create_simple_client_factory] fetches for the same agent. *)
Lemma resolver_url agent_config :
  PyStr.rstrip "/" (runtime_url (cfg_region agent_config) (cfg_runtime_arn agent_config))
    +:+ "/" +:+ well_known_path
  = agent_card_url agent_config.
Proof.
  unfold runtime_url, agent_card_url, well_known_path.
  assert (H0 : PyStr.rstrip "/" "/invocations/" <> EmptyString) by (vm_compute; discriminate).
  pose proof (rstrip_app_nonempty "/" (PyStr.quote (cfg_runtime_arn agent_config)) _ H0) as H1.
  pose proof (rstrip_app_nonempty "/" ".amazonaws.com/runtimes/" _ H1) as H2.
  pose proof (rstrip_app_nonempty "/" (cfg_region agent_config) _ H2) as H3.
  rewrite (rstrip_app _ _ _ H3), (rstrip_app _ _ _ H2), (rstrip_app _ _ _ H1),
    (rstrip_app _ _ _ H0).
  rewrite !append_assoc. reflexivity.
Qed.

Lemma create_ok env agent_config session_id w factory card w' :
  create_simple_client_factory env agent_config session_id w = (Ok (factory, card), w') ->
  exists request bearer_token,
    w' = add_calls [ SsmGetParameter (cfg_ssm_idp_config_path agent_config)
                                     (cfg_region agent_config);
                     TokenPost request;
                     CardGet (agent_card_url agent_config)
                             (auth_headers bearer_token session_id) ] w /\
    factory = session_factory bearer_token session_id.
Proof.
  unfold create_simple_client_factory, fetch_ssm_parameter.
  unfold bind at 1. rewrite outside_run.
  destruct (ssm_get_parameter env (trace w) _ _) as [idp_config|e]; [| discriminate].
  unfold bind at 1. rewrite get_bearer_token_run.
  destruct (token_of_response _) as [bearer_token|e]; [| discriminate].
  unfold bind, get_agent_card. rewrite outside_run, resolver_url.
  destruct (httpx_get_card env _ _ _) as [card0|e]; [| discriminate].
  unfold ret. intros [= <- <- <-].
  eexists _, bearer_token. rewrite !add_calls_cons, add_calls_nil. split; reflexivity.
Qed.

(** A failure of [create_simple_client_factory] ends the loop of
    [get_root_agent] on the spot, in the world of the failure. *)
Lemma build_aborts env agent_config configs session_id sub_agents w e w' :
  create_simple_client_factory env agent_config session_id w = (Raise e, w') ->
  build_sub_agents env (agent_config :: configs) session_id sub_agents w = (Raise e, w').
Proof. intros H. simpl. unfold bind. now rewrite H. Qed.

Lemma build_ok env configs session_id :
  forall sub_agents w subs w',
    build_sub_agents env configs session_id sub_agents w = (Ok subs, w') ->
    exists cs new,
      w' = add_calls cs w /\
      subs = (sub_agents ++ new)%list /\
      Forall2 (registered_for session_id) configs new /\
      card_gets cs = map agent_card_url configs /\
      length (token_posts cs) = length configs.
Proof.
  induction configs as [|c configs IH]; intros sub_agents w subs w'; simpl.
  - unfold ret. intros [= <- <-]. exists [], [].
    rewrite add_calls_nil, app_nil_r. repeat split; constructor.
  - unfold bind at 1.
    destruct (create_simple_client_factory env c session_id w) as [[[factory card]|e] w1] eqn:E;
      [| discriminate].
    destruct (create_ok _ _ _ _ _ _ _ E) as (request & token & -> & ->).
    simpl fst. intros Hrest.
    destruct (IH _ _ _ _ Hrest) as (cs & new & -> & -> & Hnew & Hcards & Htokens).
    eexists (_ ++ cs)%list, (_ :: new). rewrite add_calls_app.
    split; [reflexivity |]. split; [now rewrite <- app_assoc |].
    split; [constructor; [now exists token | exact Hnew] |].
    rewrite card_gets_app, token_posts_app. simpl. rewrite Hcards, Htokens. split; reflexivity.
Qed.

(** ** The proxies *)

Lemma ensure_resolved_noop env a w :
  _is_resolved a = true -> _ensure_resolved env a w = (Ok a, w).
Proof. intros H. unfold _ensure_resolved. now rewrite H. Qed.

Lemma ensure_resolved_registered env session_id agent_config a w a' w' :
  registered_for session_id agent_config a ->
  _ensure_resolved env a w = (Ok a', w') ->
  resolved_for session_id agent_config a' /\
  exists headers, w' = add_calls [CardGet (agent_card_url agent_config) headers] w.
Proof.
  intros [token ->]. unfold _ensure_resolved, new_remote_agent. simpl.
  unfold try_except, bind. rewrite outside_run.
  destruct (httpx_get_card env _ _ _) as [card|e]; [| discriminate].
  unfold ret. intros [= <- <-]. split.
  - now exists token, card.
  - eexists. reflexivity.
Qed.

Lemma resolved_for_resolved session_id agent_config a :
  resolved_for session_id agent_config a -> _is_resolved a = true.
Proof. now intros (token & card & ->). Qed.

Lemma get_agents_cards_ok env session_id :
  forall configs sub_agents resolved agents_info w resolved' agents_info' w',
    Forall2 (registered_for session_id) configs sub_agents ->
    get_agents_cards env sub_agents resolved agents_info w = (Ok (resolved', agents_info'), w') ->
    exists cs new,
      w' = add_calls cs w /\
      resolved' = (resolved ++ new)%list /\
      Forall2 (resolved_for session_id) configs new /\
      card_gets cs = map agent_card_url configs /\
      token_posts cs = [].
Proof.
  intros configs sub_agents resolved agents_info w resolved' agents_info' w' Hreg.
  revert resolved agents_info w resolved' agents_info' w'.
  induction Hreg as [|c a configs sub_agents Ha Hreg IH];
    intros resolved agents_info w resolved' agents_info' w'; simpl.
  - unfold ret. intros [= <- <- <-]. exists [], [].
    rewrite add_calls_nil, app_nil_r. repeat split; constructor.
  - unfold bind at 1.
    destruct (_ensure_resolved env a w) as [[a1|e] w1] eqn:E; [| discriminate].
    destruct (ensure_resolved_registered _ _ _ _ _ _ _ Ha E) as (Hres & headers & ->).
    intros Hrest.
    destruct (IH _ _ _ _ _ _ Hrest) as (cs & new & -> & -> & Hnew & Hcards & Htokens).
    eexists (_ ++ cs)%list, (a1 :: new). rewrite add_calls_app.
    split; [reflexivity |]. split; [now rewrite <- app_assoc |].
    split; [constructor; assumption |].
    rewrite card_gets_app, token_posts_app. simpl. rewrite Hcards, Htokens. split; reflexivity.
Qed.

(** A successful initialisation: the calls it made, and the proxies of
    the root agent it returns. *)
Lemma get_agent_and_card_ok env session_id actor_id w root agents_cards w' :
  get_agent_and_card env session_id actor_id w = (Ok (root, agents_cards), w') ->
  exists cs date,
    w' = add_calls cs w /\
    forallb is_init_call cs = true /\
    Forall2 (resolved_for session_id) (config_agents env) (sub_agents root) /\
    card_gets cs = (map agent_card_url (config_agents env) ++
                    map agent_card_url (config_agents env))%list /\
    length (token_posts cs) = length (config_agents env) /\
    exists registered,
      Forall2 (registered_for session_id) (config_agents env) registered /\
      instruction root = _get_system_instruction (agent_descriptions registered) date.
Proof.
  intros H.
  destruct (only_calls_get_agent_and_card env session_id actor_id w) as (cs0 & E0 & F0).
  rewrite H in E0. simpl in E0.
  revert H. unfold get_agent_and_card, get_root_agent.
  unfold bind at 1. unfold bind at 1.
  destruct (build_sub_agents env (config_agents env) session_id [] w) as [[subs|e] w1] eqn:Eb;
    [| discriminate].
  destruct (build_ok _ _ _ _ _ _ _ Eb) as (cs1 & new1 & -> & -> & Hreg & Hc1 & Ht1).
  unfold bind at 1, ask, ret. simpl app.
  unfold bind at 1. cbn [sub_agents].
  destruct (get_agents_cards env new1 [] ∅ (add_calls cs1 w)) as [[[res info]|e] w2] eqn:Eg;
    [| discriminate].
  destruct (get_agents_cards_ok _ _ _ _ _ _ _ _ _ _ Hreg Eg) as (cs2 & new2 & -> & -> & Hres & Hc2 & Ht2).
  simpl. intros [= <- <- <-].
  rewrite add_calls_app in E0. apply add_calls_inj in E0. subst cs0.
  exists (cs1 ++ cs2)%list, (today env (trace (add_calls cs1 w))).
  rewrite add_calls_app. split; [reflexivity |]. split; [exact F0 |].
  split; [exact Hres |].
  rewrite card_gets_app, token_posts_app, Hc1, Hc2, Ht2, app_nil_r.
  split; [reflexivity |]. split; [exact Ht1 |].
  exists new1. split; [exact Hreg | reflexivity].
Qed.

(** ** The entrypoint *)

Lemma run_async_run env root session_id query w :
  run_async env root "Actor1" session_id query w =
  (match run_error (runner_run_async env (trace w) root "Actor1" session_id query) with
   | Some e => Raise e
   | None => Ok tt
   end,
   fold_left (fun w' ev => add_yield (YEvent ev) w')
             (run_events (runner_run_async env (trace w) root "Actor1" session_id query))
             (add_calls (runner_calls env (trace w) root session_id query) w)).
Proof. unfold run_async, runner_calls. now destruct (run_error _). Qed.

Lemma fold_add_yield_fields (evs : list RunnerEvent) w :
  let w' := fold_left (fun w' ev => add_yield (YEvent ev) w') evs w in
  root_agent w' = root_agent w /\ trace w' = trace w /\
  session_service w' = session_service w.
Proof.
  revert w. induction evs as [|ev evs IH]; intros w; simpl; [auto |].
  destruct (IH (add_yield (YEvent ev) w)) as (H1 & H2 & H3). auto.
Qed.

(** A turn without a usable session id. *)
Lemma turn_without_session env payload w :
  run_turn env payload None w = (Raise session_error, start_turn w) /\
  run_turn env payload (Some EmptyString) w = (Raise session_error, start_turn w).
Proof. split; reflexivity. Qed.

(** A turn when the root agent is already there. *)
Lemma turn_initialised env payload c s w root :
  root_agent w = Some root ->
  run_turn env payload (Some (String c s)) w =
  match payload !! "prompt" with
  | Some (String c' s') =>
      run_async env root "Actor1" (String c s) (String c' s')
                (with_session (String c s) (start_turn w))
  | _ => (Raise prompt_error, start_turn w)
  end.
Proof.
  intros Hroot. unfold run_turn, call_agent.
  unfold bind at 1. unfold ret at 1.
  unfold bind at 1. unfold get_world at 1.
  unfold bind at 1. cbn [root_agent start_turn]. rewrite Hroot. unfold ret at 1.
  unfold bind at 1.
  destruct (payload !! "prompt") as [[|c' s']|]; [reflexivity | | reflexivity].
  unfold ret at 1. unfold bind at 1. unfold get_world at 1.
  unfold bind at 1. unfold with_session.
  destruct (bool_decide _); reflexivity.
Qed.

(** A turn whose lazy initialisation fails. *)
Lemma turn_init_fails env payload c s w e w1 :
  root_agent w = None ->
  get_agent_and_card env (String c s) "Actor1" (start_turn w) = (Raise e, w1) ->
  run_turn env payload (Some (String c s)) w = (Raise e, w1).
Proof.
  intros Hroot Hinit. unfold run_turn, call_agent.
  unfold bind at 1. unfold ret at 1.
  unfold bind at 1. unfold get_world at 1.
  unfold bind at 1. cbn [root_agent start_turn]. rewrite Hroot.
  unfold bind at 1. unfold try_except.
  change {| root_agent := root_agent w; session_service := session_service w;
            trace := trace w; yielded := [] |} with (start_turn w).
  rewrite Hinit. reflexivity.
Qed.

(** A turn whose lazy initialisation succeeds. *)
Lemma turn_init_ok env payload c s w root agents_cards w1 :
  root_agent w = None ->
  get_agent_and_card env (String c s) "Actor1" (start_turn w) = (Ok (root, agents_cards), w1) ->
  run_turn env payload (Some (String c s)) w =
  let w2 := add_yield (YAgentsCards agents_cards) (set_root_agent (Some root) w1) in
  match payload !! "prompt" with
  | Some (String c' s') =>
      run_async env root "Actor1" (String c s) (String c' s') (with_session (String c s) w2)
  | _ => (Raise prompt_error, w2)
  end.
Proof.
  intros Hroot Hinit. unfold run_turn, call_agent.
  unfold bind at 1. unfold ret at 1.
  unfold bind at 1. unfold get_world at 1.
  unfold bind at 1. cbn [root_agent start_turn]. rewrite Hroot.
  unfold bind at 1. unfold try_except.
  change {| root_agent := root_agent w; session_service := session_service w;
            trace := trace w; yielded := [] |} with (start_turn w).
  rewrite Hinit.
  unfold bind at 1. unfold modify at 1. unfold bind at 1. unfold yield_ at 1.
  unfold ret at 1. cbn [fst snd].
  unfold bind at 1.
  destruct (payload !! "prompt") as [[|c' s']|]; [reflexivity | | reflexivity].
  unfold ret at 1. unfold bind at 1. unfold get_world at 1.
  unfold bind at 1. unfold with_session.
  destruct (bool_decide _); reflexivity.
Qed.

Lemma with_session_fields session_id w :
  root_agent (with_session session_id w) = root_agent w /\
  trace (with_session session_id w) = trace w /\
  yielded (with_session session_id w) = yielded w.
Proof. unfold with_session. destruct (bool_decide _); auto. Qed.

Lemma runner_calls_no_fetch env tr root session_id query :
  token_posts (runner_calls env tr root session_id query) = [] /\
  card_gets (runner_calls env tr root session_id query) = [] /\
  forall root' u sid q,
    In (RunnerRun root' u sid q) (runner_calls env tr root session_id query) -> root' = root.
Proof.
  unfold runner_calls.
  generalize (run_sends (runner_run_async env tr root "Actor1" session_id query)).
  intros sends. simpl. repeat split.
  - induction sends; simpl; auto.
  - induction sends; simpl; auto.
  - intros root' u sid q [H|H]; [now inversion H |].
    exfalso. induction sends as [|x sends IH]; simpl in H; [exact H |].
    destruct H as [H|H]; [discriminate | auto].
Qed.

(** The trace and the root agent after one run of the runner. *)
Lemma run_async_world env root session_id query w :
  let w' := snd (run_async env root "Actor1" session_id query w) in
  root_agent w' = root_agent w /\
  trace w' = (trace w ++ runner_calls env (trace w) root session_id query)%list.
Proof.
  rewrite run_async_run. cbn [snd].
  destruct (fold_add_yield_fields
              (run_events (runner_run_async env (trace w) root "Actor1" session_id query))
              (add_calls (runner_calls env (trace w) root session_id query) w))
    as (H1 & H2 & _).
  cbv zeta in H1, H2. rewrite H1, H2. split; reflexivity.
Qed.

(** C3, as amended. A turn with a session id and no [prompt] field always
    raises, never runs the runner and sends no message to a sub-agent:
    the only calls it can make are those of the lazy initialisation.  When
    the root agent is already initialised, the prompt error is raised with
    no call at all.  When it is not, the initialisation runs first (secret
    store, token endpoint, agent cards) and, if it succeeds, the root
    agent is stored and the agent cards are yielded before the prompt
    error is raised. *)
Theorem missing_prompt_turn (env : Env) (payload : gmap string string) (c : ascii) (s : string)
        (w : World) :
  payload !! "prompt" = None ->
  (exists e, fst (run_turn env payload (Some (String c s)) w) = Raise e) /\
  (exists cs, trace (snd (run_turn env payload (Some (String c s)) w)) = (trace w ++ cs)%list /\
              forallb is_init_call cs = true) /\
  (forall root, root_agent w = Some root ->
     run_turn env payload (Some (String c s)) w = (Raise prompt_error, start_turn w)) /\
  (forall root agents_cards w1,
     root_agent w = None ->
     get_agent_and_card env (String c s) "Actor1" (start_turn w) = (Ok (root, agents_cards), w1) ->
     run_turn env payload (Some (String c s)) w =
     (Raise prompt_error,
      add_yield (YAgentsCards agents_cards) (set_root_agent (Some root) w1))).
Proof.
  intros Hprompt.
  assert (Hinit_ok : forall root agents_cards w1,
     root_agent w = None ->
     get_agent_and_card env (String c s) "Actor1" (start_turn w) = (Ok (root, agents_cards), w1) ->
     run_turn env payload (Some (String c s)) w =
     (Raise prompt_error,
      add_yield (YAgentsCards agents_cards) (set_root_agent (Some root) w1))).
  { intros root cards w1 Hroot Hinit.
    rewrite (turn_init_ok _ _ _ _ _ _ _ _ Hroot Hinit), Hprompt. reflexivity. }
  assert (Hset : forall root, root_agent w = Some root ->
     run_turn env payload (Some (String c s)) w = (Raise prompt_error, start_turn w)).
  { intros root Hroot. rewrite (turn_initialised _ _ _ _ _ _ Hroot), Hprompt. reflexivity. }
  destruct (root_agent w) as [root|] eqn:Hroot.
  - rewrite (Hset root eq_refl). cbn [fst snd]. split; [now eexists |].
    split; [| split; [intros; reflexivity | intros; discriminate]].
    exists []. now rewrite app_nil_r.
  - destruct (only_calls_get_agent_and_card env (String c s) "Actor1" (start_turn w))
      as (cs & Ecs & Fcs).
    destruct (get_agent_and_card env (String c s) "Actor1" (start_turn w))
      as [[[root cards]|e] w1] eqn:Hinit; cbn [snd] in Ecs; subst w1.
    + rewrite (Hinit_ok _ _ _ eq_refl eq_refl). cbn [fst snd].
      split; [now eexists |]. split; [now exists cs |].
      split; [intros; discriminate |].
      intros root' cards' w1 _ [= <- <- <-]. reflexivity.
    + rewrite (turn_init_fails _ _ _ _ _ _ _ Hroot Hinit). cbn [fst snd].
      split; [now eexists |]. split; [now exists cs |].
      split; intros; discriminate.
Qed.

Lemma missing_prompt_turn_witness :
  run_turn example_env ∅ (Some "session-2") after_first_turn =
  (Raise prompt_error, start_turn after_first_turn).
Proof.
  assert (Hprompt : (∅ : gmap string string) !! "prompt" = None) by reflexivity.
  destruct (missing_prompt_turn example_env ∅ "s" "ession-2" after_first_turn Hprompt)
    as (_ & _ & H & _).
  eapply H. vm_compute. reflexivity.
Defined.

(** C3, counterexample. On the first turn of the process the root agent
    is not initialised yet: without a prompt, the secret store, the token
    endpoint and the agent cards of both agents are called before the
    prompt error is raised. *)
Lemma missing_prompt_first_turn_contacts_agents :
  ~ raises_before_any_contact example_env ∅ "session-1" initial_world.
Proof.
  intros [_ H]. vm_compute in H. discriminate H.
Qed.

Example missing_prompt_first_turn_calls :
  fst (run_turn example_env ∅ (Some "session-1") initial_world) = Raise prompt_error /\
  card_gets (trace (snd (run_turn example_env ∅ (Some "session-1") initial_world))) =
  [ agent_card_url monitoring_config; agent_card_url ops_config;
    agent_card_url monitoring_config; agent_card_url ops_config ] /\
  length (token_posts (trace (snd (run_turn example_env ∅ (Some "session-1") initial_world)))) = 2.
Proof. vm_compute. repeat split. Qed.

(** C7, as amended. A failure while the proxies are initialised is not
    isolated: the exception of the first failing step leaves [call_agent],
    past the turn; nothing is yielded and the root agent stays unset, so
    that a later turn starts the initialisation again.  In the loop of
    [get_root_agent] the failure of one agent's [create_simple_client_factory]
    ends the loop in the world of the failure: the agents after it are
    not contacted. *)
Theorem initialisation_failure_aborts_turn (env : Env) (payload : gmap string string)
        (c : ascii) (s : string) (w : World) (e : Exn) (w1 : World) :
  root_agent w = None ->
  get_agent_and_card env (String c s) "Actor1" (start_turn w) = (Raise e, w1) ->
  run_turn env payload (Some (String c s)) w = (Raise e, w1) /\
  root_agent w1 = None /\
  yielded w1 = [] /\
  (forall agent_config configs sub_agents w0 e0 w0',
      create_simple_client_factory env agent_config (String c s) w0 = (Raise e0, w0') ->
      build_sub_agents env (agent_config :: configs) (String c s) sub_agents w0 = (Raise e0, w0')).
Proof.
  intros Hroot Hinit.
  split; [now apply turn_init_fails |].
  destruct (only_calls_get_agent_and_card env (String c s) "Actor1" (start_turn w))
    as (cs & Ecs & _).
  rewrite Hinit in Ecs. cbn [snd] in Ecs. subst w1.
  split; [exact Hroot |]. split; [reflexivity |].
  intros. now apply build_aborts.
Qed.

Lemma initialisation_failure_aborts_turn_witness :
  fst (run_turn unauthorized_env example_payload (Some "session-1") initial_world) =
  Raise (HTTPStatusError 401).
Proof.
  assert (Hroot : root_agent initial_world = None) by reflexivity.
  assert (Hinit : get_agent_and_card unauthorized_env "session-1" "Actor1"
                    (start_turn initial_world) =
                  (Raise (HTTPStatusError 401),
                   snd (get_agent_and_card unauthorized_env "session-1" "Actor1"
                          (start_turn initial_world))))
    by (vm_compute; reflexivity).
  destruct (initialisation_failure_aborts_turn unauthorized_env example_payload
              "s" "ession-1" initial_world _ _ Hroot Hinit) as (H & _).
  exact (f_equal fst H).
Defined.

(** C7, counterexample. With a token endpoint that answers 401, the turn
    raises the HTTP error of the first agent; the second agent is never
    contacted and no failure marker is yielded. *)
Lemma unauthorized_turn_not_isolated :
  ~ failure_isolated unauthorized_env example_payload "session-1" initial_world.
Proof.
  intros [H _]. apply (H (HTTPStatusError 401)). vm_compute. reflexivity.
Qed.

Example unauthorized_turn_trace :
  let out := run_turn unauthorized_env example_payload (Some "session-1") initial_world in
  fst out = Raise (HTTPStatusError 401) /\
  yielded (snd out) = [] /\
  root_agent (snd out) = None /\
  exists request,
    trace (snd out) = [SsmGetParameter "/a2a/monitoring/idp" "us-east-1"; TokenPost request].
Proof. vm_compute. repeat split. eexists. reflexivity. Qed.

(** When the proxy's own fetch of the card fails, the failure is wrapped
    in the resolution error and leaves the turn in the same way. *)
Example fetch_once_turn :
  let out := run_turn fetch_once_env example_payload (Some "session-1") initial_world in
  fst out = Raise (ProxyResolutionError (EnvError "ConnectError")) /\
  yielded (snd out) = [] /\
  root_agent (snd out) = None /\
  card_gets (trace (snd out)) =
  [ agent_card_url monitoring_config; agent_card_url ops_config;
    agent_card_url monitoring_config ].
Proof. vm_compute. repeat split. Qed.

(** A first turn with a prompt: the cards are yielded, then the events
    of the runner. *)
Example first_turn_yields :
  let out := run_turn example_env example_payload (Some "session-1") initial_world in
  fst out = Ok tt /\
  exists agents_cards,
    yielded (snd out) =
    [ YAgentsCards agents_cards;
      YEvent {| event_author := "root_agent"; event_text := "done" |} ] /\
    (exists card, agents_cards !! "monitoring_agent" =
                  Some {| data_agent_card_url := Some (agent_card_url monitoring_config);
                          data_agent_card := Some card |}) /\
    agents_cards !! "Monitoring_Agent" = None.
Proof.
  vm_compute. split; [reflexivity |]. eexists. split; [reflexivity |].
  split; [eexists |]; vm_compute; reflexivity.
Qed.

(** ** Sessions *)



(** A turn that finds the root agent initialised keeps it and fetches
    neither token nor card; if it runs the runner, it runs it on that
    root agent. *)
Lemma initialised_turn_world (env : Env) (payload : gmap string string)
      (c : ascii) (s : string) (w : World) (root : Agent) :
  root_agent w = Some root ->
  root_agent (snd (run_turn env payload (Some (String c s)) w)) = Some root /\
  exists cs,
    trace (snd (run_turn env payload (Some (String c s)) w)) = (trace w ++ cs)%list /\
    token_posts cs = [] /\
    card_gets cs = [] /\
    forall root' u sid q, In (RunnerRun root' u sid q) cs -> root' = root.
Proof.
  intros Hroot. rewrite (turn_initialised _ _ _ _ _ _ Hroot).
  destruct (payload !! "prompt") as [[|c' s']|].
  - cbn [snd]. split; [exact Hroot |]. exists []. rewrite app_nil_r. repeat split.
    intros ? ? ? ? [].
  - destruct (run_async_world env root (String c s) (String c' s')
                (with_session (String c s) (start_turn w))) as (H1 & H2).
    cbv zeta in H1, H2.
    destruct (with_session_fields (String c s) (start_turn w)) as (F1 & F2 & _).
    rewrite H1, H2, F1, F2. split; [exact Hroot |].
    eexists. split; [reflexivity |]. apply runner_calls_no_fetch.
  - cbn [snd]. split; [exact Hroot |]. exists []. rewrite app_nil_r. repeat split.
    intros ? ? ? ? [].
Qed.



Example second_session_fetches_no_token :
  length (token_posts (trace after_first_turn)) = 2 /\
  length (token_posts (trace after_second_turn)) = 2 /\
  root_agent after_second_turn = root_agent after_first_turn /\
  (exists root, root_agent after_second_turn = Some root /\
                bound_to_session "session-1" root = true /\
                bound_to_session "session-2" root = false).
Proof. vm_compute. repeat split. eexists. repeat split. Qed.

(** ** Agent cards *)

Lemma resolved_for_cached env session_id agent_config a :
  resolved_for session_id agent_config a ->
  exists card, _agent_card a = Some card /\ forall w, _ensure_resolved env a w = (Ok a, w).
Proof.
  intros Hres. pose proof (resolved_for_resolved _ _ _ Hres) as Hr.
  destruct Hres as (token & card & ->). exists card. split; [reflexivity |].
  intros w. now apply ensure_resolved_noop.
Qed.

Lemma resolved_all_cached env session_id configs (subs : list RemoteA2aAgent) :
  Forall2 (resolved_for session_id) configs subs ->
  Forall (fun a => exists card,
              _agent_card a = Some card /\
              forall w, _ensure_resolved env a w = (Ok a, w)) subs.
Proof.
  induction 1 as [|cfg a configs subs Ha _ IH]; constructor; [| exact IH].
  eapply resolved_for_cached; exact Ha.
Qed.

(** C4, as amended. A successful initialisation fetches the card of
    every configured agent twice, at the same URL: once through the
    resolver of [create_simple_client_factory], whose card is dropped, and
    once when the proxy is resolved.  From then on the card is cached:
    [_ensure_resolved] on a proxy of the root agent returns the same proxy
    with its card and makes no call, and a later turn fetches no card. *)
Theorem agent_card_fetched_twice_then_cached (env : Env) (session_id actor_id : string)
        (w : World) (root : Agent) (agents_cards : gmap string AgentData) (w' : World) :
  get_agent_and_card env session_id actor_id w = (Ok (root, agents_cards), w') ->
  (exists cs,
      w' = add_calls cs w /\
      card_gets cs = (map agent_card_url (config_agents env) ++
                      map agent_card_url (config_agents env))%list) /\
  Forall (fun a => exists card,
              _agent_card a = Some card /\
              forall w0, _ensure_resolved env a w0 = (Ok a, w0)) (sub_agents root) /\
  (forall payload c s w2,
      root_agent w2 = Some root ->
      exists cs,
        trace (snd (run_turn env payload (Some (String c s)) w2)) = (trace w2 ++ cs)%list /\
        card_gets cs = []).
Proof.
  intros Hinit.
  destruct (get_agent_and_card_ok _ _ _ _ _ _ _ Hinit)
    as (cs & date & -> & _ & Hres & Hcards & _).
  split; [now exists cs |]. split.
  - eapply resolved_all_cached; exact Hres.
  - intros payload c s w2 Hroot.
    destruct (initialised_turn_world env payload c s w2 root Hroot)
      as (_ & cs2 & Htrace & _ & Hnone & _).
    now exists cs2.
Qed.

Lemma agent_card_fetched_twice_witness :
  exists root agents_cards w',
    get_agent_and_card example_env "session-1" "Actor1" initial_world =
    (Ok (root, agents_cards), w') /\
    card_gets (trace w') =
    [ agent_card_url monitoring_config; agent_card_url ops_config;
      agent_card_url monitoring_config; agent_card_url ops_config ].
Proof.
  destruct (get_agent_and_card example_env "session-1" "Actor1" initial_world)
    as [[[root agents_cards]|e] w'] eqn:E.
  - exists root, agents_cards, w'. split; [reflexivity |].
    destruct (agent_card_fetched_twice_then_cached _ _ _ _ _ _ _ E) as ((cs & -> & Hc) & _).
    simpl. exact Hc.
  - vm_compute in E. discriminate E.
Defined.

(** C4, counterexample. In the first turn of a session the card of the
    monitoring agent is fetched twice at the same URL. *)
Lemma monitoring_card_fetched_twice :
  ~ fetched_at_most_once (agent_card_url monitoring_config) (trace after_first_turn).
Proof.
  unfold fetched_at_most_once. intros H. vm_compute in H. lia.
Qed.

Example ensure_resolved_after_first_turn :
  exists root a rest,
    root_agent after_first_turn = Some root /\
    sub_agents root = a :: rest /\
    _ensure_resolved example_env a after_first_turn = (Ok a, after_first_turn).
Proof. vm_compute. eexists _, _, _. repeat split. Qed.

(** ** Names *)

Lemma occurs_in_app_l s a t : occurs_in s t -> occurs_in s (a +:+ t).
Proof.
  intros (before & after & ->). exists (a +:+ before), after. now rewrite append_assoc.
Qed.

Lemma occurs_in_app_r s t b : occurs_in s t -> occurs_in s (t +:+ b).
Proof.
  intros (before & after & ->). exists before, (after +:+ b). now rewrite !append_assoc.
Qed.

Lemma directives_name_monitoring_agent : occurs_in "Monitoring_Agent" instruction_directives_2.
Proof.
  exists (String.substring 0 43 instruction_directives_2),
         (String.substring 59 1405 instruction_directives_2).
  vm_compute. reflexivity.
Qed.

(** The instruction names the agent in mixed case, whatever the
    descriptions and the date. *)
Lemma instruction_names_monitoring_agent descriptions date :
  occurs_in "Monitoring_Agent" (_get_system_instruction descriptions date).
Proof.
  unfold _get_system_instruction.
  do 6 apply occurs_in_app_l. apply occurs_in_app_r.
  exact directives_name_monitoring_agent.
Qed.

Lemma registered_name_lower agent_config :
  registered_name agent_config = PyStr.lower (cfg_name agent_config).
Proof. unfold registered_name. apply replace_underscore_id. Qed.

Lemma registered_names session_id configs (subs : list RemoteA2aAgent) :
  Forall2 (registered_for session_id) configs subs ->
  map agent_name subs = map (fun c => PyStr.lower (cfg_name c)) configs.
Proof.
  induction 1 as [|cfg a configs subs [token ->] _ IH]; [reflexivity |].
  simpl. now rewrite IH, registered_name_lower.
Qed.

Lemma resolved_names session_id configs (subs : list RemoteA2aAgent) :
  Forall2 (resolved_for session_id) configs subs ->
  map agent_name subs = map (fun c => PyStr.lower (cfg_name c)) configs.
Proof.
  induction 1 as [|cfg a configs subs (token & card & ->) _ IH]; [reflexivity |].
  simpl. now rewrite IH, registered_name_lower.
Qed.

Lemma get_root_agent_ok env session_id actor_id w root w' :
  get_root_agent env session_id actor_id w = (Ok root, w') ->
  Forall2 (registered_for session_id) (config_agents env) (sub_agents root) /\
  exists date,
    instruction root = _get_system_instruction (agent_descriptions (sub_agents root)) date.
Proof.
  unfold get_root_agent. unfold bind at 1.
  destruct (build_sub_agents env (config_agents env) session_id [] w) as [[subs|e] w1] eqn:Eb;
    [| discriminate].
  destruct (build_ok _ _ _ _ _ _ _ Eb) as (cs1 & new1 & -> & -> & Hreg & _).
  unfold bind, ask, ret. intros [= <- <-]. simpl. split; [exact Hreg |]. now eexists.
Qed.

(** C10. The name a proxy is registered under is the configured name in
    lower case (replacing every underscore by an underscore changes
    nothing), for the root agent [get_root_agent] builds and for the one
    [get_agent_and_card] returns; the instruction of that root agent,
    however, names the agents in their original mixed case, for one
    [Monitoring_Agent], which is not its own lower case. *)
Theorem registered_names_are_lowercase (env : Env) (session_id actor_id : string) (w : World) :
  (forall root w',
      get_root_agent env session_id actor_id w = (Ok root, w') ->
      map agent_name (sub_agents root) =
      map (fun c => PyStr.lower (cfg_name c)) (config_agents env) /\
      occurs_in "Monitoring_Agent" (instruction root)) /\
  (forall root agents_cards w',
      get_agent_and_card env session_id actor_id w = (Ok (root, agents_cards), w') ->
      map agent_name (sub_agents root) =
      map (fun c => PyStr.lower (cfg_name c)) (config_agents env) /\
      occurs_in "Monitoring_Agent" (instruction root)) /\
  (forall agent_config,
      registered_name agent_config = PyStr.lower (cfg_name agent_config)) /\
  (forall name, PyStr.replace "_" "_" name = name) /\
  PyStr.lower "Monitoring_Agent" = "monitoring_agent" /\
  PyStr.lower "Monitoring_Agent" <> "Monitoring_Agent".
Proof.
  split; [| split; [| split; [| split; [| split]]]].
  - intros root w' H. destruct (get_root_agent_ok _ _ _ _ _ _ H) as (Hreg & date & ->).
    split; [eapply registered_names; exact Hreg | apply instruction_names_monitoring_agent].
  - intros root cards w' H.
    destruct (get_agent_and_card_ok _ _ _ _ _ _ _ H)
      as (cs & date & _ & _ & Hres & _ & _ & registered & _ & ->).
    split; [eapply resolved_names; exact Hres | apply instruction_names_monitoring_agent].
  - apply registered_name_lower.
  - apply replace_underscore_id.
  - reflexivity.
  - vm_compute. discriminate.
Qed.

Example registered_names_example :
  exists root,
    root_agent after_first_turn = Some root /\
    map agent_name (sub_agents root) = ["monitoring_agent"; "opsremediation_agent"].
Proof. vm_compute. eexists. split; reflexivity. Qed.

(** ** Non-streaming clients *)

Lemma reply_events_non_streaming response :
  exists event,
    reply_events false response = [event] /\
    first_reply [event] = Some (reply_of response).
Proof. destruct response; eexists; split; reflexivity. Qed.




Example send_sync_message_example :
  exists m,
    fst (send_sync_message example_env example_agent_configs "Monitoring_Agent" "hello"
                           initial_world) = Ok (Some (ReplyMessage m)) /\
    parts m = [text_part "hello"].
Proof. vm_compute. eexists. split; reflexivity. Qed.

Example send_sync_message_unknown_agent :
  fst (send_sync_message example_env example_agent_configs "monitoring_agent" "hello"
                         initial_world)
  = Raise (ValueError "Agent monitoring_agent not found in configuration").
Proof. vm_compute. reflexivity. Qed.

(** A streaming client may yield several events; the loop of
    [send_sync_message] would still return on the first. *)
Example streaming_yields_more (t1 t2 : Task) (u : UpdateEvent) :
  reply_events true (RemoteTask [(t1, u)] t2) = [EvTaskUpdate t1 (Some u); EvTaskUpdate t2 None] /\
  first_reply (reply_events true (RemoteTask [(t1, u)] t2)) = Some (ReplyTask t1).
Proof. split; reflexivity. Qed.


(** ** The trace printer *)

Lemma length_append (a b : string) :
  String.length (a +:+ b) = String.length a + String.length b.
Proof. induction a as [|c a IH]; string_simpl; [reflexivity | now rewrite IH]. Qed.

Lemma take_length n s : String.length (PyFmt.take n s) = Nat.min n (String.length s).
Proof.
  revert s. induction n as [|n IH]; intros [|c s]; simpl; auto.
Qed.

Lemma take_drop n s : PyFmt.take n s +:+ PyFmt.drop n s = s.
Proof.
  revert s. induction n as [|n IH]; intros [|c s]; string_simpl; auto.
  now rewrite IH.
Qed.

Lemma truncate_trace_text_length text :
  String.length (truncate_trace_text text) <= 80.
Proof.
  unfold truncate_trace_text.
  destruct (80 <? String.length text)%nat eqn:E.
  - apply Nat.ltb_lt in E. rewrite length_append, take_length.
    change (String.length "...") with 3. lia.
  - apply Nat.ltb_ge in E. exact E.
Qed.

Lemma print_bind_print line {B} (k : unit -> Printer B) out :
  print_bind (print line) k out = k tt (out ++ [line])%list.
Proof. reflexivity. Qed.

Lemma trace_text_shown msg :
  text_first msg ->
  exists text, trace_text msg = Ok text /\ truncate_trace_text text = shown_text msg.
Proof.
  unfold text_first, trace_text, shown_text.
  destruct (parts msg) as [|p ps]; [intros _; now eexists |].
  intros [text Ht]. exists text. rewrite (part_text_of_text _ _ Ht).
  unfold part_text_content. now rewrite Ht.
Qed.

Lemma print_flow_readable (history : list Message) :
  Forall text_first history ->
  forall i out, print_flow i history out = (Ok tt, (out ++ flow_lines i history)%list).
Proof.
  induction 1 as [|msg history Hm _ IH]; intros i out; simpl.
  - unfold print_result. now rewrite app_nil_r.
  - destruct (trace_text_shown _ Hm) as (text & Ht & Hs).
    unfold print_bind at 1. unfold print_result at 1. rewrite Ht.
    rewrite print_bind_print, IH, Hs, <- app_assoc. reflexivity.
Qed.

Lemma flow_lines_length i history : length (flow_lines i history) = length history.
Proof. revert i. induction history as [|msg history IH]; intros i; simpl; auto. Qed.

Lemma format_agent_trace_header response out :
  format_agent_trace response out =
  print_bind (print_flow 1 (history response)) (fun _ =>
  print_bind (print EmptyString) (fun _ =>
  print_bind (print "✅ FINAL RESULT:") (fun _ =>
  print_bind (print (PyFmt.repeat "-" 40)) (fun _ =>
  print_bind
    match artifacts response with
    | Some (artifact :: _) =>
        print_bind (print_result (final_artifact_text artifact)) (fun final_text =>
        print (truncate_final_text final_text))
    | _ => print_result (Ok tt)
    end (fun _ =>
  print (PyFmt.repeat "=" 60))))))
  (out ++ trace_header response)%list.
Proof.
  unfold format_agent_trace. rewrite !print_bind_print.
  rewrite <- !app_assoc. reflexivity.
Qed.

(** After the flow, [format_agent_trace] prints three lines and then the
    final result, whatever that is. *)
Lemma format_agent_trace_flow response out :
  Forall text_first (history response) ->
  exists rest,
    snd (format_agent_trace response out) =
    (out ++ trace_header response ++ flow_lines 1 (history response) ++
     [EmptyString; "✅ FINAL RESULT:"; PyFmt.repeat "-" 40] ++ rest)%list.
Proof.
  intros Hall. rewrite format_agent_trace_header.
  unfold print_bind at 1. rewrite (print_flow_readable _ Hall).
  rewrite !print_bind_print. rewrite <- !app_assoc. cbn [app].
  destruct (artifacts response) as [[|artifact l]|].
  - unfold print_bind, print_result, print. cbn [snd]. rewrite <- !app_assoc. cbn [app].
    eexists. reflexivity.
  - unfold print_bind at 1. unfold print_bind at 1. unfold print_result at 1.
    destruct (final_artifact_text artifact) as [final_text|e].
    + unfold print. cbn [snd]. rewrite <- !app_assoc. cbn [app]. eexists. reflexivity.
    + cbn [snd]. exists []. reflexivity.
  - unfold print_bind, print_result, print. cbn [snd]. rewrite <- !app_assoc. cbn [app].
    eexists. reflexivity.
Qed.

(** X1. For a reply whose history messages start with a text part (or
    have no part), [format_agent_trace] prints its ten header lines and
    then the execution flow, one line per message, numbered from 1 in
    history order, whatever the artifacts are.  No flow line shows more
    than 80 characters of message text: a text of at most 80 characters
    is shown as it is, a longer one as its first 77 characters followed
    by three dots. *)
Theorem trace_flow_lines (response : Task) (out : list string) :
  Forall text_first (history response) ->
  (exists rest,
      snd (format_agent_trace response out) =
      (out ++ trace_header response ++ flow_lines 1 (history response) ++
       [EmptyString; "✅ FINAL RESULT:"; PyFmt.repeat "-" 40] ++ rest)%list) /\
  length (flow_lines 1 (history response)) = length (history response) /\
  (forall msg, In msg (history response) -> String.length (shown_text msg) <= 80) /\
  (forall text, String.length text <= 80 -> truncate_trace_text text = text) /\
  (forall text, 80 < String.length text ->
     truncate_trace_text text = PyFmt.take 77 text +:+ "..." /\
     String.length (truncate_trace_text text) = 80).
Proof.
  intros Hall. split; [now apply format_agent_trace_flow |].
  split; [apply flow_lines_length |]. split; [| split].
  - intros msg _. apply truncate_trace_text_length.
  - intros text Hlen. unfold truncate_trace_text.
    apply Nat.ltb_ge in Hlen. now rewrite Hlen.
  - intros text Hlen. unfold truncate_trace_text.
    pose proof Hlen as Hlt. apply Nat.ltb_lt in Hlt. rewrite Hlt. split; [reflexivity |].
    rewrite length_append, take_length. change (String.length "...") with 3. lia.
Qed.

Lemma trace_flow_lines_witness :
  exists rest,
    snd (format_agent_trace empty_artifact_reply []) =
    (trace_header empty_artifact_reply ++
     [" 1. 👤 USER: question"; " 2. 🤖 AGENT: answer"] ++
     [EmptyString; "✅ FINAL RESULT:"; PyFmt.repeat "-" 40] ++ rest)%list.
Proof.
  assert (Hall : Forall text_first (history empty_artifact_reply))
    by (repeat constructor; eexists; reflexivity).
  destruct (trace_flow_lines empty_artifact_reply [] Hall) as ((rest & H) & _).
  exists rest. exact H.
Defined.

(** A text of 100 characters is shown as 77 characters and three dots. *)
Example truncate_trace_text_example :
  truncate_trace_text (PyFmt.repeat "abcdefghij" 10) =
  PyFmt.repeat "abcdefghij" 7 +:+ "abcdefg...".
Proof. reflexivity. Qed.



(** ** Invoking an agent runtime *)

Lemma startswith_app p s : PyStr.startswith p (p +:+ s) = true.
Proof.
  induction p as [|c p IH]; string_simpl; [reflexivity |]. now rewrite Ascii.eqb_refl.
Qed.

Lemma drop_app p s : PyFmt.drop (String.length p) (p +:+ s) = s.
Proof. induction p as [|c p IH]; string_simpl; [now destruct s | exact IH]. Qed.

Lemma startswith_empty_line p : p <> EmptyString -> PyStr.startswith p EmptyString = false.
Proof. destruct p; [congruence | reflexivity]. Qed.

Lemma read_event_stream_payloads {Json} (lines content : list string) (printed : list (Printed Json)) :
  read_event_stream Json lines content printed =
  ((content ++ data_payloads lines)%list, (printed ++ map PText (data_payloads lines))%list).
Proof.
  revert content printed. unfold data_payloads.
  induction lines as [|line lines IH]; intros content printed.
  - simpl. now rewrite !app_nil_r.
  - destruct line as [|c line].
    + simpl read_event_stream. rewrite IH. reflexivity.
    + cbn [read_event_stream List.filter].
      destruct (PyStr.startswith "data: " (String c line)).
      * rewrite IH. cbn [map]. rewrite <- !app_assoc. reflexivity.
      * apply IH.
Qed.

Lemma data_payloads_round_trip (chunks : list string) :
  data_payloads (map (fun chunk => "data: " +:+ chunk) chunks) = chunks.
Proof.
  unfold data_payloads. induction chunks as [|chunk chunks IH]; [reflexivity |].
  cbn [map List.filter]. rewrite (startswith_app "data: " chunk). cbn [map].
  rewrite IH. reflexivity.
Qed.

(** X3. When the runtime answers with an event stream, [invoke_agent]
    returns the payloads of the [data: ] lines joined by newlines, in the
    order of the stream: every other line (empty or not) is dropped, and
    each payload is printed as it is read.  In particular a stream made
    of [data: ] lines only is read back exactly. *)
Theorem invoke_agent_event_stream {Json : Type} (json_loads : string -> Result Json)
        (runtime : string -> string -> string -> Result RuntimeResponse)
        (fresh_uuid agent_arn prompt : string) (session_id : option string)
        (response : RuntimeResponse) :
  runtime agent_arn (effective_session fresh_uuid session_id) prompt = Ok response ->
  PyFmt.contains "text/event-stream" (default EmptyString (contentType response)) = true ->
  invoke_agent Json json_loads runtime fresh_uuid agent_arn prompt session_id =
  (Ok (RetText (PyStr.join nl (data_payloads (body_lines response)))),
   (map PText (data_payloads (body_lines response)) ++
    [PText (nl +:+ "Complete response: " +:+
            PyStr.join nl (data_payloads (body_lines response)))])%list) /\
  (forall chunks,
      body_lines response = map (fun chunk => "data: " +:+ chunk) chunks ->
      fst (invoke_agent Json json_loads runtime fresh_uuid agent_arn prompt session_id) =
      Ok (RetText (PyStr.join nl chunks))).
Proof.
  intros Hcall Hstream.
  assert (Hrun : invoke_agent Json json_loads runtime fresh_uuid agent_arn prompt session_id =
    (Ok (RetText (PyStr.join nl (data_payloads (body_lines response)))),
     (map PText (data_payloads (body_lines response)) ++
      [PText (nl +:+ "Complete response: " +:+
              PyStr.join nl (data_payloads (body_lines response)))])%list)).
  { unfold invoke_agent. fold (effective_session fresh_uuid session_id).
    rewrite Hcall, Hstream, read_event_stream_payloads. reflexivity. }
  split; [exact Hrun |].
  intros chunks Hlines. rewrite Hrun, Hlines, data_payloads_round_trip. reflexivity.
Qed.

Lemma invoke_agent_event_stream_witness :
  fst (invoke_agent unit null_only_json
         (constant_runtime {| contentType := Some "text/event-stream; charset=utf-8";
                              body_lines := ["data: one"; ""; ": keep-alive"; "data: two"];
                              body_chunks := [] |})
         "fresh" "arn" "hello" None)
  = Ok (RetText (PyStr.join nl ["one"; "two"])).
Proof.
  refine (f_equal fst (proj1 (invoke_agent_event_stream null_only_json
            (constant_runtime _) "fresh" "arn" "hello" None _ eq_refl _))).
  reflexivity.
Defined.

(** X4. The two other branches of [invoke_agent].  A content type that
    is exactly [application/json] makes it parse the concatenated chunks
    and return the parsed value, the parser's exception leaving the
    function.  Every other content type that does not hold
    [text/event-stream] (a missing one, or [application/json] followed by
    a charset) makes it return the response as it is: nothing is parsed. *)
Theorem invoke_agent_content_type {Json : Type} (json_loads : string -> Result Json)
        (runtime : string -> string -> string -> Result RuntimeResponse)
        (fresh_uuid agent_arn prompt : string) (session_id : option string)
        (response : RuntimeResponse) :
  runtime agent_arn (effective_session fresh_uuid session_id) prompt = Ok response ->
  PyFmt.contains "text/event-stream" (default EmptyString (contentType response)) = false ->
  (contentType response = Some "application/json" ->
   fst (invoke_agent Json json_loads runtime fresh_uuid agent_arn prompt session_id) =
   match json_loads (PyStr.concat (body_chunks response)) with
   | Ok result => Ok (RetJson result)
   | Raise e => Raise e
   end) /\
  (contentType response <> Some "application/json" ->
   invoke_agent Json json_loads runtime fresh_uuid agent_arn prompt session_id =
   (Ok (RetResponse response), [PResponse response])).
Proof.
  intros Hcall Hstream. unfold invoke_agent. fold (effective_session fresh_uuid session_id).
  rewrite Hcall, Hstream. split; intros Hct.
  - rewrite bool_decide_eq_true_2 by exact Hct.
    now destruct (json_loads _).
  - now rewrite bool_decide_eq_false_2 by exact Hct.
Qed.

Lemma invoke_agent_content_type_witness :
  fst (invoke_agent unit null_only_json
         (constant_runtime {| contentType := Some "application/json; charset=utf-8";
                              body_lines := []; body_chunks := ["nu"; "ll"] |})
         "fresh" "arn" "hello" (Some "session-1"))
  = Ok (RetResponse {| contentType := Some "application/json; charset=utf-8";
                       body_lines := []; body_chunks := ["nu"; "ll"] |}).
Proof.
  refine (f_equal fst (proj2 (invoke_agent_content_type null_only_json
            (constant_runtime _) "fresh" "arn" "hello" (Some "session-1") _ eq_refl _) _)).
  - reflexivity.
  - discriminate.
Defined.

Example invoke_agent_json_example :
  fst (invoke_agent unit null_only_json
         (constant_runtime {| contentType := Some "application/json";
                              body_lines := []; body_chunks := ["nu"; "ll"] |})
         "fresh" "arn" "hello" (Some "session-1"))
  = Ok (RetJson tt).
Proof. reflexivity. Qed.

(** ** API keys *)

Lemma load_api_keys_run ssm_value environ config_data :
  load_api_keys_from_ssm ssm_value environ config_data =
  match configured_key_path config_data with
  | Some path =>
      match ssm_value path (configured_region config_data) true with
      | Ok value => {[ "GOOGLE_API_KEY" := value ]}
      | Raise _ => key_from_environment environ "GOOGLE_API_KEY" ∅
      end
  | None => key_from_environment environ "GOOGLE_API_KEY" ∅
  end.
Proof.
  unfold load_api_keys_from_ssm, configured_key_path, configured_region.
  destruct (ssm_parameters config_data) as [[region [parameters|]]|]; simpl;
    try reflexivity.
  - destruct (parameters !! "google_api_key") as [[|c path]|]; try reflexivity.
    unfold get_parameter_from_ssm.
    destruct (ssm_value (String c path) (default "us-west-2" region) true); reflexivity.
Qed.

Lemma key_from_environment_lookup environ key :
  key_from_environment environ "GOOGLE_API_KEY" ∅ !! key =
  if decide (key = "GOOGLE_API_KEY")
  then match environ !! "GOOGLE_API_KEY" with
       | Some (String c v) => Some (String c v)
       | _ => None
       end
  else None.
Proof.
  unfold key_from_environment.
  destruct (environ !! "GOOGLE_API_KEY") as [[|c v]|]; destruct (decide _) as [->|Hne];
    rewrite ?lookup_empty; try reflexivity;
    first [apply lookup_insert_eq | rewrite lookup_insert_ne by congruence; apply lookup_empty].
Qed.

(** X5. [load_api_keys_from_ssm] returns at most the one key
    GOOGLE_API_KEY.  When a non-empty parameter path is configured and
    the parameter store answers, the key holds the stored value whatever
    the environment says (even an empty value); in every other case,
    a failure of the parameter store included, it holds the environment
    variable when that is set and non-empty, and is absent otherwise.
    Without a configured path the parameter store is not consulted. *)
Theorem load_api_keys_precedence (ssm_value : string -> string -> bool -> Result string)
        (environ : gmap string string) (config_data : ConfigData) :
  (forall key, key <> "GOOGLE_API_KEY" ->
     load_api_keys_from_ssm ssm_value environ config_data !! key = None) /\
  (forall path value,
     configured_key_path config_data = Some path ->
     ssm_value path (configured_region config_data) true = Ok value ->
     load_api_keys_from_ssm ssm_value environ config_data !! "GOOGLE_API_KEY" = Some value) /\
  (forall path e,
     configured_key_path config_data = Some path ->
     ssm_value path (configured_region config_data) true = Raise e ->
     load_api_keys_from_ssm ssm_value environ config_data !! "GOOGLE_API_KEY" =
     match environ !! "GOOGLE_API_KEY" with
     | Some (String c v) => Some (String c v)
     | _ => None
     end) /\
  (configured_key_path config_data = None ->
   forall other_store,
     load_api_keys_from_ssm ssm_value environ config_data =
     load_api_keys_from_ssm other_store environ config_data /\
     load_api_keys_from_ssm ssm_value environ config_data !! "GOOGLE_API_KEY" =
     match environ !! "GOOGLE_API_KEY" with
     | Some (String c v) => Some (String c v)
     | _ => None
     end).
Proof.
  split; [| split; [| split]].
  - intros key Hne. rewrite load_api_keys_run.
    destruct (configured_key_path config_data) as [path|].
    + destruct (ssm_value path _ true).
      * apply lookup_singleton_ne. congruence.
      * rewrite key_from_environment_lookup. now destruct (decide _).
    + rewrite key_from_environment_lookup. now destruct (decide _).
  - intros path value Hpath Hssm. rewrite load_api_keys_run, Hpath, Hssm.
    apply lookup_singleton_eq.
  - intros path e Hpath Hssm. rewrite load_api_keys_run, Hpath, Hssm.
    rewrite key_from_environment_lookup. now destruct (decide _).
  - intros Hpath other. rewrite !load_api_keys_run, Hpath. split; [reflexivity |].
    rewrite key_from_environment_lookup. now destruct (decide _).
Qed.

Example load_api_keys_store_wins :
  load_api_keys_from_ssm (fun _ _ _ => Ok "from-store") {[ "GOOGLE_API_KEY" := "from-env" ]}
                         example_config_data !! "GOOGLE_API_KEY" = Some "from-store".
Proof. vm_compute. reflexivity. Qed.

Example load_api_keys_store_fails :
  load_api_keys_from_ssm (fun _ _ _ => Raise (EnvError "ClientError"))
                         {[ "GOOGLE_API_KEY" := "from-env" ]}
                         example_config_data !! "GOOGLE_API_KEY" = Some "from-env".
Proof. vm_compute. reflexivity. Qed.






Example initialize_api_keys_example :
  initialize_api_keys (fun _ _ _ => Ok "from-store") {[ "HOME" := "/root" ]} example_config_data
  = ({[ "GOOGLE_API_KEY" := "from-store" ]},
     <["GOOGLE_API_KEY" := "from-store"]> {[ "HOME" := "/root" ]}).
Proof. vm_compute. reflexivity. Qed.

(** An empty value in the parameter store is returned, and not exported. *)
Example initialize_api_keys_empty_value :
  let r := initialize_api_keys (fun _ _ _ => Ok EmptyString) {[ "GOOGLE_API_KEY" := "from-env" ]}
                               example_config_data in
  fst r !! "GOOGLE_API_KEY" = Some EmptyString /\
  snd r !! "GOOGLE_API_KEY" = Some "from-env".
Proof. vm_compute. split; reflexivity. Qed.

(** ** More on the credential provider *)

(** X7. [get_bearer_token] makes exactly one call, the POST to the token
    endpoint, whatever the answer: there is no retry.  An exception of
    the HTTP client leaves the function as it is; an answer outside 2xx
    raises HTTPStatusError with the status of the answer; a 2xx answer
    whose body is not JSON raises the decoding error; one whose body is a
    JSON object without [access_token] raises KeyError; and one whose body
    is JSON of another kind (an array, a string, a number, [null]) is
    parsed and raises TypeError when it is indexed. *)
Theorem get_bearer_token_failures (env : Env) (idp_config : IdpConfig) (w : World) :
  exists request,
    snd (get_bearer_token env idp_config w) = add_call (TokenPost request) w /\
    (forall e, httpx_post env (trace w) request = Raise e ->
               fst (get_bearer_token env idp_config w) = Raise e) /\
    (forall response,
        httpx_post env (trace w) request = Ok response ->
        ~ (200 <= status_code response < 300)%nat ->
        fst (get_bearer_token env idp_config w) =
        Raise (HTTPStatusError (status_code response))) /\
    (forall response,
        httpx_post env (trace w) request = Ok response ->
        (200 <= status_code response < 300)%nat ->
        json_body response = None ->
        fst (get_bearer_token env idp_config w) = Raise (EnvError "JSONDecodeError")) /\
    (forall response body,
        httpx_post env (trace w) request = Ok response ->
        (200 <= status_code response < 300)%nat ->
        json_body response = Some (JsonObject body) ->
        body !! "access_token" = None ->
        fst (get_bearer_token env idp_config w) = Raise (KeyError "access_token")) /\
    (forall response subscript_error,
        httpx_post env (trace w) request = Ok response ->
        (200 <= status_code response < 300)%nat ->
        json_body response = Some (JsonOther subscript_error) ->
        fst (get_bearer_token env idp_config w) = Raise (TypeError subscript_error)).
Proof.
  eexists. rewrite get_bearer_token_run. cbn [fst snd]. split; [reflexivity |].
  split; [| split; [| split; [| split]]].
  - intros e ->. reflexivity.
  - intros response -> Hstatus. unfold token_of_response.
    destruct ((200 <=? status_code response) && (status_code response <? 300))%nat eqn:E;
      [| reflexivity].
    exfalso. apply Hstatus. apply andb_prop in E as [Hlo Hhi].
    apply Nat.leb_le in Hlo. apply Nat.ltb_lt in Hhi. lia.
  - intros response -> [Hlo Hhi] Hbody. unfold token_of_response.
    apply Nat.leb_le in Hlo. apply Nat.ltb_lt in Hhi. now rewrite Hlo, Hhi, Hbody.
  - intros response body -> [Hlo Hhi] Hbody Htoken. unfold token_of_response.
    apply Nat.leb_le in Hlo. apply Nat.ltb_lt in Hhi. now rewrite Hlo, Hhi, Hbody, Htoken.
  - intros response subscript_error -> [Hlo Hhi] Hbody. unfold token_of_response.
    apply Nat.leb_le in Hlo. apply Nat.ltb_lt in Hhi. now rewrite Hlo, Hhi, Hbody.
Qed.

(** A token endpoint that answers 200 with a JSON array. *)
Example get_bearer_token_json_array :
  fst (get_bearer_token
         {| config_agents := []; ssm_get_parameter := ssm_get_parameter example_env;
            httpx_post := fun _ _ =>
              Ok {| status_code := 200;
                    json_body := Some (JsonOther
                                         "list indices must be integers or slices, not str") |};
            httpx_get_card := httpx_get_card example_env;
            remote_reply := remote_reply example_env;
            runner_run_async := runner_run_async example_env;
            today := today example_env; uuid4 := uuid4 example_env |}
         example_idp initial_world)
  = Raise (TypeError "list indices must be integers or slices, not str").
Proof. reflexivity. Qed.

Example get_bearer_token_redirect :
  fst (get_bearer_token
         {| config_agents := []; ssm_get_parameter := ssm_get_parameter example_env;
            httpx_post := fun _ _ => Ok {| status_code := 302; json_body := None |};
            httpx_get_card := httpx_get_card example_env;
            remote_reply := remote_reply example_env;
            runner_run_async := runner_run_async example_env;
            today := today example_env; uuid4 := uuid4 example_env |}
         example_idp initial_world)
  = Raise (HTTPStatusError 302).
Proof. reflexivity. Qed.

(** ** More on the client factory *)

(** The whole of [create_simple_client_factory], step by step. *)
Lemma create_run env agent_config session_id w :
  let ssm_call := SsmGetParameter (cfg_ssm_idp_config_path agent_config)
                                  (cfg_region agent_config) in
  create_simple_client_factory env agent_config session_id w =
  match ssm_get_parameter env (trace w) (cfg_ssm_idp_config_path agent_config)
                          (cfg_region agent_config) with
  | Raise e => (Raise e, add_calls [ssm_call] w)
  | Ok idp_config =>
      let request :=
        token_request idp_config (fst (PyStr.split_fields "_" (user_pool_id idp_config))) in
      match token_of_response (httpx_post env (trace w ++ [ssm_call]) request) with
      | Raise e => (Raise e, add_calls [ssm_call; TokenPost request] w)
      | Ok bearer_token =>
          let headers := auth_headers bearer_token session_id in
          let card_call := CardGet (agent_card_url agent_config) headers in
          match httpx_get_card env (trace w ++ [ssm_call; TokenPost request])
                               (agent_card_url agent_config) headers with
          | Raise e => (Raise e, add_calls [ssm_call; TokenPost request; card_call] w)
          | Ok card =>
              (Ok (session_factory bearer_token session_id, card),
               add_calls [ssm_call; TokenPost request; card_call] w)
          end
      end
  end.
Proof.
  intros ssm_call. unfold create_simple_client_factory, fetch_ssm_parameter.
  unfold bind at 1. rewrite outside_run. fold ssm_call.
  destruct (ssm_get_parameter env (trace w) _ _) as [idp_config|e]; [| reflexivity].
  unfold bind at 1. rewrite get_bearer_token_run. cbn [trace add_call].
  destruct (token_of_response _) as [bearer_token|e];
    [| rewrite !add_calls_cons, add_calls_nil; reflexivity].
  unfold bind, get_agent_card. rewrite outside_run, resolver_url. cbn [trace add_call].
  rewrite <- app_assoc. cbn [app].
  destruct (httpx_get_card env _ _ _) as [card|e];
    rewrite !add_calls_cons, add_calls_nil; reflexivity.
Qed.

(** X8. [create_simple_client_factory] works in three steps and stops at
    the first that fails: when the secret store fails, no token is asked
    for and no card fetched; when the token endpoint fails, no card is
    fetched.  When it succeeds, the agent card was fetched with the
    Authorization header made of the token the endpoint has just answered
    and with the caller's session id, and the factory it returns sends
    with these same headers, a timeout of 300 and no streaming. *)
Theorem create_simple_client_factory_steps (env : Env) (agent_config : AgentConfig)
        (session_id : string) (w : World) :
  (forall e,
     ssm_get_parameter env (trace w) (cfg_ssm_idp_config_path agent_config)
                       (cfg_region agent_config) = Raise e ->
     create_simple_client_factory env agent_config session_id w =
     (Raise e, add_call (SsmGetParameter (cfg_ssm_idp_config_path agent_config)
                                         (cfg_region agent_config)) w)) /\
  (forall idp_config e,
     ssm_get_parameter env (trace w) (cfg_ssm_idp_config_path agent_config)
                       (cfg_region agent_config) = Ok idp_config ->
     fst (get_bearer_token env idp_config
            (add_call (SsmGetParameter (cfg_ssm_idp_config_path agent_config)
                                       (cfg_region agent_config)) w)) = Raise e ->
     exists request,
       create_simple_client_factory env agent_config session_id w =
       (Raise e, add_calls [ SsmGetParameter (cfg_ssm_idp_config_path agent_config)
                                             (cfg_region agent_config);
                             TokenPost request ] w)) /\
  (forall e w',
     create_simple_client_factory env agent_config session_id w = (Raise e, w') ->
     exists cs, w' = add_calls cs w /\ length (card_gets cs) <= 1 /\
                (card_gets cs = [] \/ length (token_posts cs) = 1)) /\
  (forall factory card w',
     create_simple_client_factory env agent_config session_id w = (Ok (factory, card), w') ->
     exists request bearer_token,
       token_of_response
         (httpx_post env (trace w ++ [SsmGetParameter (cfg_ssm_idp_config_path agent_config)
                                                       (cfg_region agent_config)])
                     request) = Ok bearer_token /\
       trace w' =
       (trace w ++
        [ SsmGetParameter (cfg_ssm_idp_config_path agent_config) (cfg_region agent_config);
          TokenPost request;
          CardGet (agent_card_url agent_config)
                  [ ("Authorization", "Bearer " +:+ bearer_token);
                    ("X-Amzn-Bedrock-AgentCore-Runtime-Session-Id", session_id) ] ])%list /\
       factory =
       {| factory_config :=
            {| httpx_client :=
                 {| client_timeout := 300;
                    client_headers :=
                      [ ("Authorization", "Bearer " +:+ bearer_token);
                        ("X-Amzn-Bedrock-AgentCore-Runtime-Session-Id", session_id) ] |};
               streaming := false |} |}).
Proof.
  split; [| split; [| split]].
  - intros e Hssm. rewrite create_run. cbv zeta. now rewrite Hssm.
  - intros idp_config e Hssm. rewrite get_bearer_token_run. cbv zeta. cbn [fst trace add_call].
    intros Htoken. eexists. rewrite create_run. cbv zeta. rewrite Hssm, Htoken. reflexivity.
  - intros e w'. rewrite create_run. cbv zeta.
    destruct (ssm_get_parameter env (trace w) _ _) as [idp_config|e0].
    + destruct (token_of_response _) as [bearer_token|e1].
      * destruct (httpx_get_card env _ _ _) as [card|e2]; [discriminate |].
        intros [= <- <-]. eexists. split; [reflexivity |].
        split; [simpl; lia | right; reflexivity].
      * intros [= <- <-]. eexists. split; [reflexivity |].
        split; [simpl; lia | left; reflexivity].
    + intros [= <- <-]. eexists. split; [reflexivity |].
      split; [simpl; lia | left; reflexivity].
  - intros factory card w'. rewrite create_run. cbv zeta.
    destruct (ssm_get_parameter env (trace w) _ _) as [idp_config|e0]; [| discriminate].
    destruct (token_of_response _) as [bearer_token|e1] eqn:Etoken; [| discriminate].
    destruct (httpx_get_card env _ _ _) as [card0|e2]; [| discriminate].
    intros [= <- <- <-]. eexists _, bearer_token. split; [exact Etoken |].
    split; reflexivity.
Qed.

Example create_unauthorized :
  exists request,
    create_simple_client_factory unauthorized_env monitoring_config "session-1" initial_world =
    (Raise (HTTPStatusError 401),
     add_calls [SsmGetParameter "/a2a/monitoring/idp" "us-east-1"; TokenPost request]
               initial_world).
Proof. eexists. vm_compute. reflexivity. Qed.

(** ** Runtime URLs *)

Lemma hex_digit_inj a b : a < 16 -> b < 16 -> PyStr.hex_digit a = PyStr.hex_digit b -> a = b.
Proof.
  intros Ha Hb.
  do 16 (destruct a as [|a]; [do 16 (destruct b as [|b]; [vm_compute; congruence |]); lia |]).
  lia.
Qed.

Lemma nat_of_ascii_bound c : nat_of_ascii c < 256.
Proof. apply nat_ascii_bounded. Qed.

Lemma escaped_char_inj c d :
  PyStr.hex_digit (nat_of_ascii c / 16) = PyStr.hex_digit (nat_of_ascii d / 16) ->
  PyStr.hex_digit (nat_of_ascii c mod 16) = PyStr.hex_digit (nat_of_ascii d mod 16) ->
  c = d.
Proof.
  intros Hhi Hlo.
  pose proof (nat_of_ascii_bound c) as Hc. pose proof (nat_of_ascii_bound d) as Hd.
  apply hex_digit_inj in Hhi;
    [| apply Nat.Div0.div_lt_upper_bound; lia | apply Nat.Div0.div_lt_upper_bound; lia].
  apply hex_digit_inj in Hlo; [| apply Nat.mod_upper_bound; lia | apply Nat.mod_upper_bound; lia].
  rewrite <- (ascii_nat_embedding c), <- (ascii_nat_embedding d). f_equal.
  rewrite (Nat.div_mod_eq (nat_of_ascii c) 16), (Nat.div_mod_eq (nat_of_ascii d) 16). lia.
Qed.

Lemma percent_reserved : PyStr.unreserved "%" = false.
Proof. reflexivity. Qed.

(** [quote] loses nothing: two strings with the same escaped form are
    the same string. *)
Lemma quote_inj s1 : forall s2, PyStr.quote s1 = PyStr.quote s2 -> s1 = s2.
Proof.
  induction s1 as [|c s1 IH]; intros [|d s2]; cbn [PyStr.quote].
  - reflexivity.
  - destruct (PyStr.unreserved d); discriminate.
  - destruct (PyStr.unreserved c); discriminate.
  - destruct (PyStr.unreserved c) eqn:Ec; destruct (PyStr.unreserved d) eqn:Ed.
    + intros [= -> H]. f_equal. now apply IH.
    + intros [= -> _]. rewrite percent_reserved in Ec. discriminate.
    + intros [= <- _]. rewrite percent_reserved in Ed. discriminate.
    + intros [= Hhi Hlo H]. f_equal; [now apply escaped_char_inj | now apply IH].
Qed.

(** Every character of an escaped string is an unreserved one or the
    percent sign: no slash, colon or space is left. *)
Lemma quote_lacks s c :
  PyStr.unreserved c = false -> c <> "%"%char -> lacks c (PyStr.quote s).
Proof.
  intros Hc Hpercent. unfold lacks.
  induction s as [|d s IH]; cbn [PyStr.quote]; [reflexivity |].
  destruct (PyStr.unreserved d) eqn:Ed; cbn [PyStr.contains_char].
  - destruct (Ascii.eqb_spec d c) as [->|_]; [congruence | exact IH].
  - destruct (Ascii.eqb_spec "%" c) as [<-|_]; [congruence |].
    assert (Hhex : forall n, n < 16 -> PyStr.unreserved (PyStr.hex_digit n) = true).
    { intros n Hn. do 16 (destruct n as [|n]; [reflexivity |]). lia. }
    pose proof (nat_of_ascii_bound d) as Hd.
    destruct (Ascii.eqb_spec (PyStr.hex_digit (nat_of_ascii d / 16)) c) as [<-|_].
    { rewrite Hhex in Hc; [discriminate | apply Nat.Div0.div_lt_upper_bound; lia]. }
    destruct (Ascii.eqb_spec (PyStr.hex_digit (nat_of_ascii d mod 16)) c) as [<-|_].
    { rewrite Hhex in Hc; [discriminate | apply Nat.mod_upper_bound; lia]. }
    exact IH.
Qed.

Lemma append_inj_r (a b s : string) : a +:+ s = b +:+ s -> a = b.
Proof.
  revert b. induction a as [|c a IH]; intros [|d b]; rewrite ?append_nil, ?append_cons.
  - reflexivity.
  - intros H. apply (f_equal String.length) in H. simpl in H.
    rewrite length_append in H. lia.
  - intros H. apply (f_equal String.length) in H. simpl in H.
    rewrite length_append in H. lia.
  - intros [= -> H]. f_equal. now apply IH.
Qed.

(** X9. The URLs built for an agent keep its runtime ARN apart: in the
    same region, two configurations have the same agent-card URL only if
    they have the same runtime ARN, and likewise for the runtime URL; the
    escaped ARN holds no slash, so that it stays one segment of the path;
    and the agent-card URL is the runtime URL followed by the well-known
    path. *)
Theorem agent_urls_distinct (c1 c2 : AgentConfig) :
  (cfg_region c1 = cfg_region c2 ->
   agent_card_url c1 = agent_card_url c2 ->
   cfg_runtime_arn c1 = cfg_runtime_arn c2) /\
  (forall region arn1 arn2, runtime_url region arn1 = runtime_url region arn2 -> arn1 = arn2) /\
  lacks "/" (PyStr.quote (cfg_runtime_arn c1)) /\
  agent_card_url c1 =
  runtime_url (cfg_region c1) (cfg_runtime_arn c1) +:+ ".well-known/agent-card.json".
Proof.
  split; [| split; [| split]].
  - unfold agent_card_url. intros -> H.
    apply (inj (String.append _)) in H. apply (inj (String.append _)) in H.
    apply (inj (String.append _)) in H. apply append_inj_r in H. now apply quote_inj.
  - unfold runtime_url. intros region arn1 arn2 H.
    apply (inj (String.append _)) in H. apply (inj (String.append _)) in H.
    apply (inj (String.append _)) in H. apply append_inj_r in H. now apply quote_inj.
  - apply quote_lacks; [reflexivity | discriminate].
  - unfold agent_card_url, runtime_url. rewrite !append_assoc. reflexivity.
Qed.

Example quote_round_trip_example :
  PyStr.quote "a/b" <> PyStr.quote "a%2Fb".
Proof. vm_compute. discriminate. Qed.

(** ** The instruction and the agent cards *)

Lemma occurs_in_join x sep (l : list string) : In x l -> occurs_in x (PyStr.join sep l).
Proof.
  induction l as [|y l IH]; [intros [] |].
  intros [->|Hin].
  - destruct l as [|z l].
    + exists EmptyString, EmptyString. simpl. now rewrite append_nil, append_empty_r.
    + exists EmptyString, (sep +:+ PyStr.join sep (z :: l)). reflexivity.
  - destruct l as [|z l]; [destruct Hin |].
    change (PyStr.join sep (y :: z :: l)) with (y +:+ sep +:+ PyStr.join sep (z :: l)).
    apply occurs_in_app_l, occurs_in_app_l. now apply IH.
Qed.

Lemma registered_line session_id agent_config a :
  registered_for session_id agent_config a ->
  "- " +:+ agent_name a +:+ ": " +:+ agent_description a =
  "- " +:+ PyStr.lower (cfg_name agent_config) +:+ ": " +:+ cfg_description agent_config.
Proof. intros [token ->]. simpl. now rewrite registered_name_lower. Qed.

Lemma registered_lines session_id configs (subs : list RemoteA2aAgent) :
  Forall2 (registered_for session_id) configs subs ->
  map (fun a => "- " +:+ agent_name a +:+ ": " +:+ agent_description a) subs =
  map (fun c => "- " +:+ PyStr.lower (cfg_name c) +:+ ": " +:+ cfg_description c) configs.
Proof.
  induction 1 as [|cfg a configs subs Ha _ IH]; [reflexivity |].
  simpl. rewrite IH. f_equal. eapply registered_line; exact Ha.
Qed.

(** X10. The instruction of the root agent [get_root_agent] builds
    lists every configured agent: between the heading and the directives
    stand the lines [- name: description], one per entry of the
    configuration and in its order, joined by newlines, with the name in
    lower case and the configured description. *)
Theorem instruction_lists_agents (env : Env) (session_id actor_id : string) (w : World)
        (root : Agent) (w' : World) :
  get_root_agent env session_id actor_id w = (Ok root, w') ->
  (exists date,
      instruction root =
      _get_system_instruction
        (PyStr.join nl (map (fun c => "- " +:+ PyStr.lower (cfg_name c) +:+ ": " +:+
                                      cfg_description c) (config_agents env)))
        date) /\
  (forall c, In c (config_agents env) ->
     occurs_in ("- " +:+ PyStr.lower (cfg_name c) +:+ ": " +:+ cfg_description c)
               (instruction root)).
Proof.
  intros H. destruct (get_root_agent_ok _ _ _ _ _ _ H) as (Hreg & date & Hinstr).
  rewrite Hinstr. unfold agent_descriptions. rewrite (registered_lines _ _ _ Hreg).
  split; [now exists date |].
  intros c Hin. unfold _get_system_instruction.
  apply occurs_in_app_l, occurs_in_app_r.
  apply occurs_in_join.
  apply (in_map (fun c => "- " +:+ PyStr.lower (cfg_name c) +:+ ": " +:+ cfg_description c)).
  exact Hin.
Qed.

Lemma instruction_lists_agents_witness :
  exists root w',
    get_root_agent example_env "session-1" "Actor1" initial_world = (Ok root, w') /\
    occurs_in "- monitoring_agent: Metrics, logs and alarms" (instruction root).
Proof.
  destruct (get_root_agent example_env "session-1" "Actor1" initial_world)
    as [[root|e] w'] eqn:E.
  - exists root, w'. split; [reflexivity |].
    destruct (instruction_lists_agents _ _ _ _ _ _ E) as (_ & H).
    apply (H monitoring_config). left. reflexivity.
  - vm_compute in E. discriminate E.
Defined.

Lemma ensure_resolved_data env session_id agent_config a w a' w' :
  registered_for session_id agent_config a ->
  _ensure_resolved env a w = (Ok a', w') ->
  agent_name a' = PyStr.lower (cfg_name agent_config) /\
  _agent_card_source a = Some (agent_card_url agent_config) /\
  exists card, _agent_card a' = Some card.
Proof.
  intros Hreg Hrun.
  destruct (ensure_resolved_registered _ _ _ _ _ _ _ Hreg Hrun) as ((token & card & ->) & _).
  destruct Hreg as [token' ->]. simpl. rewrite registered_name_lower. eauto.
Qed.

(** The dictionary [get_agents_cards] fills: its keys and its values. *)
Lemma get_agents_cards_info env session_id :
  forall configs sub_agents resolved agents_info w resolved' agents_info' w',
    Forall2 (registered_for session_id) configs sub_agents ->
    get_agents_cards env sub_agents resolved agents_info w = (Ok (resolved', agents_info'), w') ->
    (forall key,
        is_Some (agents_info' !! key) <->
        is_Some (agents_info !! key) \/
        exists c, In c configs /\ PyStr.lower (cfg_name c) = key) /\
    (forall key data,
        agents_info' !! key = Some data ->
        agents_info !! key = Some data \/
        exists c card,
          In c configs /\ PyStr.lower (cfg_name c) = key /\
          data = {| data_agent_card_url := Some (agent_card_url c);
                    data_agent_card := Some card |}).
Proof.
  intros configs sub_agents resolved agents_info w resolved' agents_info' w' Hreg.
  revert resolved agents_info w resolved' agents_info' w'.
  induction Hreg as [|c a configs sub_agents Ha Hreg IH];
    intros resolved agents_info w resolved' agents_info' w'; simpl.
  - unfold ret. intros [= <- <- <-]. split.
    + intros key. split; [auto | intros [H | (c & [] & _)]; exact H].
    + intros key data H. now left.
  - unfold bind at 1.
    destruct (_ensure_resolved env a w) as [[a1|e] w1] eqn:E; [| discriminate].
    destruct (ensure_resolved_data _ _ _ _ _ _ _ Ha E) as (Hname & Hsource & card & Hcard).
    rewrite Hname, Hsource, Hcard. intros Hrest.
    destruct (IH _ _ _ _ _ _ Hrest) as (Hkeys & Hvalues). split.
    + intros key. rewrite Hkeys. rewrite lookup_insert.
      destruct (decide (PyStr.lower (cfg_name c) = key)) as [Heq|Hne].
      * split; [intros _; right; exists c; auto | intros _; left; eauto].
      * split.
        -- intros [H | (c' & Hin & Hk)]; [now left | right; exists c'; auto].
        -- intros [H | (c' & [<-|Hin] & Hk)]; [now left | contradiction | right; exists c'; auto].
    + intros key data Hdata. destruct (Hvalues key data Hdata) as [H | (c' & card' & Hin & Hk & Hd)].
      * rewrite lookup_insert in H.
        destruct (decide (PyStr.lower (cfg_name c) = key)) as [Heq|Hne].
        -- injection H as <-. right. exists c, card. auto.
        -- now left.
      * right. exists c', card'. auto.
Qed.

Lemma size_list_to_set_bound (l : list string) :
  size (list_to_set l : gset string) <= length l.
Proof.
  induction l as [|x l IH].
  - rewrite list_to_set_nil, size_empty. reflexivity.
  - rewrite list_to_set_cons, size_union_alt, size_singleton. cbn [length].
    assert (H : size (list_to_set l ∖ {[x]} : gset string) <= size (list_to_set l : gset string))
      by (apply subseteq_size; set_solver).
    lia.
Qed.

(** X11. The agent cards [get_agent_and_card] returns (and [call_agent]
    yields) are keyed by the lower-cased configured names: a key is
    present exactly when it is the lower-cased name of a configured
    agent, and its value holds a fetched card and the card URL of a
    configured agent of that lower-cased name.  Agents whose names differ
    by case only share one entry. *)
Theorem agents_cards_keys (env : Env) (session_id actor_id : string) (w : World)
        (root : Agent) (agents_cards : gmap string AgentData) (w' : World) :
  get_agent_and_card env session_id actor_id w = (Ok (root, agents_cards), w') ->
  (forall key,
      is_Some (agents_cards !! key) <->
      exists c, In c (config_agents env) /\ PyStr.lower (cfg_name c) = key) /\
  (forall key data,
      agents_cards !! key = Some data ->
      exists c card,
        In c (config_agents env) /\ PyStr.lower (cfg_name c) = key /\
        data = {| data_agent_card_url := Some (agent_card_url c);
                  data_agent_card := Some card |}) /\
  size agents_cards <= length (config_agents env).
Proof.
  unfold get_agent_and_card. unfold bind at 1.
  destruct (get_root_agent env session_id actor_id w) as [[root0|e] w1] eqn:Eroot;
    [| discriminate].
  destruct (get_root_agent_ok _ _ _ _ _ _ Eroot) as (Hreg & _).
  unfold bind at 1.
  destruct (get_agents_cards env (sub_agents root0) [] ∅ w1) as [[[res info]|e] w2] eqn:Eg;
    [| discriminate].
  destruct (get_agents_cards_info _ _ _ _ _ _ _ _ _ _ Hreg Eg) as (Hkeys & Hvalues).
  unfold ret. cbn [fst snd]. intros [= <- <- <-].
  assert (Hk : forall key,
             is_Some (info !! key) <->
             exists c, In c (config_agents env) /\ PyStr.lower (cfg_name c) = key).
  { intros key. rewrite Hkeys. split; [| auto].
    intros [H | H]; [| exact H]. rewrite lookup_empty in H. now destruct H. }
  split; [exact Hk |]. split.
  - intros key data Hdata. destruct (Hvalues key data Hdata) as [H | H]; [| exact H].
    rewrite lookup_empty in H. discriminate.
  - rewrite <- size_dom.
    assert (Hsub : dom info ⊆ list_to_set (map (fun c => PyStr.lower (cfg_name c))
                                             (config_agents env))).
    { intros key Hin. apply elem_of_dom in Hin. apply Hk in Hin as (c & Hc & <-).
      apply elem_of_list_to_set. apply list_elem_of_In.
      apply (in_map (fun c => PyStr.lower (cfg_name c))). exact Hc. }
    apply subseteq_size in Hsub. etransitivity; [exact Hsub |].
    etransitivity; [apply size_list_to_set_bound |]. now rewrite length_map.
Qed.

Lemma agents_cards_keys_witness :
  exists root agents_cards w',
    get_agent_and_card example_env "session-1" "Actor1" initial_world =
    (Ok (root, agents_cards), w') /\
    is_Some (agents_cards !! "opsremediation_agent").
Proof.
  destruct (get_agent_and_card example_env "session-1" "Actor1" initial_world)
    as [[[root agents_cards]|e] w'] eqn:E.
  - exists root, agents_cards, w'. split; [reflexivity |].
    destruct (agents_cards_keys _ _ _ _ _ _ _ E) as (H & _).
    apply H. exists ops_config. split; [right; left; reflexivity | reflexivity].
  - vm_compute in E. discriminate E.
Defined.

(** ** More on the entrypoint *)

Lemma fold_add_yield_world (evs : list RunnerEvent) w :
  fold_left (fun w' ev => add_yield (YEvent ev) w') evs w =
  {| root_agent := root_agent w; session_service := session_service w;
     trace := trace w; yielded := (yielded w ++ map YEvent evs)%list |}.
Proof.
  revert w. induction evs as [|ev evs IH]; intros w; simpl.
  - rewrite app_nil_r. now destruct w.
  - rewrite IH. simpl. now rewrite <- app_assoc.
Qed.

(** The world after one run of the runner, field by field. *)
Lemma run_async_fields env root session_id query w :
  let r := runner_run_async env (trace w) root "Actor1" session_id query in
  let w' := snd (run_async env root "Actor1" session_id query w) in
  fst (run_async env root "Actor1" session_id query w) =
  match run_error r with
  | Some e => Raise e
  | None => Ok tt
  end /\
  session_service w' = session_service w /\
  yielded w' = (yielded w ++ map YEvent (run_events r))%list.
Proof.
  rewrite run_async_run. cbn [fst snd]. rewrite fold_add_yield_world. simpl. auto.
Qed.

Lemma with_session_service session_id w :
  session_service (with_session session_id w) =
  {[ (APP_NAME, "Actor1", session_id) ]} ∪ session_service w.
Proof.
  unfold with_session. destruct (bool_decide _) eqn:E; [| reflexivity].
  apply bool_decide_eq_true in E. set_solver.
Qed.

Lemma init_keeps_sessions env session_id actor_id w :
  session_service (snd (get_agent_and_card env session_id actor_id w)) = session_service w /\
  yielded (snd (get_agent_and_card env session_id actor_id w)) = yielded w.
Proof.
  destruct (only_calls_get_agent_and_card env session_id actor_id w) as (cs & -> & _).
  split; reflexivity.
Qed.

(** How a turn ends and what it leaves, by cases. *)
Lemma turn_cases env payload c s w :
  let out := run_turn env payload (Some (String c s)) w in
  (exists e, fst out = Raise e /\
             session_service (snd out) = session_service w /\
             root_agent (snd out) = None) \/
  (fst out = Raise prompt_error /\
   session_service (snd out) = session_service w /\
   (forall c' s', payload !! "prompt" <> Some (String c' s'))) \/
  (exists c' s' root w0,
      payload !! "prompt" = Some (String c' s') /\
      session_service w0 = session_service w /\
      (root_agent w = Some root -> yielded w0 = []) /\
      (root_agent w = None ->
       exists agents_cards, yielded w0 = [YAgentsCards agents_cards]) /\
      out = run_async env root "Actor1" (String c s) (String c' s')
                      (with_session (String c s) w0)).
Proof.
  cbv zeta. destruct (root_agent w) as [root|] eqn:Hroot.
  - rewrite (turn_initialised _ _ _ _ _ _ Hroot).
    destruct (payload !! "prompt") as [[|c' s']|] eqn:Hp.
    + right. left. repeat split; discriminate.
    + right. right. exists c', s', root, (start_turn w).
      repeat split; [intros; discriminate].
    + right. left. repeat split; discriminate.
  - destruct (get_agent_and_card env (String c s) "Actor1" (start_turn w))
      as [[[root cards]|e] w1] eqn:Hinit.
    + pose proof (init_keeps_sessions env (String c s) "Actor1" (start_turn w)) as (Hs & Hy).
      rewrite Hinit in Hs, Hy. cbn [snd] in Hs, Hy.
      rewrite (turn_init_ok _ _ _ _ _ _ _ _ Hroot Hinit). cbv zeta.
      destruct (payload !! "prompt") as [[|c' s']|] eqn:Hp.
      * right. left. repeat split; [exact Hs | discriminate].
      * right. right.
        exists c', s', root, (add_yield (YAgentsCards cards) (set_root_agent (Some root) w1)).
        repeat split; [exact Hs | intros; discriminate |].
        intros _. exists cards. simpl. now rewrite Hy.
      * right. left. repeat split; [exact Hs | discriminate].
    + rewrite (turn_init_fails _ _ _ _ _ _ _ Hroot Hinit). left. exists e.
      pose proof (init_keeps_sessions env (String c s) "Actor1" (start_turn w)) as (Hs & _).
      rewrite Hinit in Hs. cbn [snd] in Hs.
      destruct (only_calls_get_agent_and_card env (String c s) "Actor1" (start_turn w))
        as (cs & Ecs & _).
      rewrite Hinit in Ecs. cbn [snd] in Ecs. subst w1. repeat split; assumption.
Qed.

(** X12. [call_agent] only ever adds the session of the turn to the
    session service, and adds it exactly when the turn gets as far as the
    runner: a turn without a session id, a turn without a (non-empty)
    prompt and a turn whose initialisation fails leave the session
    service as it was; a turn that reaches the runner leaves it with the
    turn's session added, also when that session was there already and
    also when the runner raises. *)
Theorem session_registered_with_prompt (env : Env) (payload : gmap string string)
        (session_id : option string) (w : World) :
  let service' := session_service (snd (run_turn env payload session_id w)) in
  (service' = session_service w \/
   exists c s, session_id = Some (String c s) /\
               service' = {[ (APP_NAME, "Actor1", String c s) ]} ∪ session_service w) /\
  ((forall c s, session_id <> Some (String c s)) -> service' = session_service w) /\
  ((forall c s, payload !! "prompt" <> Some (String c s)) -> service' = session_service w) /\
  (forall c s e w1,
      session_id = Some (String c s) ->
      root_agent w = None ->
      get_agent_and_card env (String c s) "Actor1" (start_turn w) = (Raise e, w1) ->
      fst (run_turn env payload session_id w) = Raise e /\
      service' = session_service w) /\
  (forall c s c' s' root,
      session_id = Some (String c s) ->
      payload !! "prompt" = Some (String c' s') ->
      root_agent (snd (run_turn env payload session_id w)) = Some root ->
      (APP_NAME, "Actor1", String c s) ∈ service').
Proof.
  cbv zeta.
  assert (Hfails : forall c s e w1,
             session_id = Some (String c s) ->
             root_agent w = None ->
             get_agent_and_card env (String c s) "Actor1" (start_turn w) = (Raise e, w1) ->
             fst (run_turn env payload session_id w) = Raise e /\
             session_service (snd (run_turn env payload session_id w)) = session_service w).
  { intros c s e w1 -> Hroot Hinit.
    rewrite (turn_init_fails _ _ _ _ _ _ _ Hroot Hinit). split; [reflexivity |].
    pose proof (init_keeps_sessions env (String c s) "Actor1" (start_turn w)) as (Hs & _).
    rewrite Hinit in Hs. exact Hs. }
  cut ((session_service (snd (run_turn env payload session_id w)) = session_service w \/
        exists c s, session_id = Some (String c s) /\
                    session_service (snd (run_turn env payload session_id w)) =
                    {[ (APP_NAME, "Actor1", String c s) ]} ∪ session_service w) /\
       ((forall c s, session_id <> Some (String c s)) ->
        session_service (snd (run_turn env payload session_id w)) = session_service w) /\
       ((forall c s, payload !! "prompt" <> Some (String c s)) ->
        session_service (snd (run_turn env payload session_id w)) = session_service w) /\
       (forall c s c' s' root,
           session_id = Some (String c s) ->
           payload !! "prompt" = Some (String c' s') ->
           root_agent (snd (run_turn env payload session_id w)) = Some root ->
           (APP_NAME, "Actor1", String c s) ∈
           session_service (snd (run_turn env payload session_id w)))).
  { intros (H1 & H2 & H3 & H4). repeat split; auto; now apply (Hfails c s e w1). }
  clear Hfails.
  destruct session_id as [[|c s]|].
  - repeat split; try (now left); try reflexivity. intros; discriminate.
  - destruct (turn_cases env payload c s w)
      as [(e & _ & Hs & Hroot) | [(_ & Hs & Hp) | (c' & s' & root & w0 & Hp & Hs & _ & _ & Hout)]].
    + rewrite Hs. repeat split; try (now left); try reflexivity.
      intros ? ? ? ? root _ _ H. rewrite Hroot in H. discriminate.
    + rewrite Hs. repeat split; try (now left); try reflexivity.
      intros ? ? c' s' root _ H _. now apply Hp in H.
    + cbv zeta in Hout. rewrite Hout.
      destruct (run_async_fields env root (String c s) (String c' s')
                  (with_session (String c s) w0)) as (_ & Hs' & _).
      cbv zeta in Hs'. rewrite Hs', with_session_service, Hs.
      split; [right; now exists c, s |].
      split; [intros H; now specialize (H c s) |].
      split; [intros H; now apply H in Hp |].
      intros c0 s0 ? ? ? [= <- <-] _ _. set_solver.
  - repeat split; try (now left); try reflexivity. intros; discriminate.
Qed.

Example session_registered_example :
  session_service after_first_turn = {[ (APP_NAME, "Actor1", "session-1") ]} /\
  session_service after_second_turn =
  {[ (APP_NAME, "Actor1", "session-2") ]} ∪ {[ (APP_NAME, "Actor1", "session-1") ]}.
Proof.
  split.
  - apply set_eq. intros x. vm_compute. tauto.
  - apply set_eq. intros x. vm_compute. tauto.
Qed.

(** X13. What a turn yields.  When the root agent is already there, a
    turn with a prompt yields the events of the runner, all of them, in
    the runner's order and nothing else (no agent cards), also when the
    runner ends with an exception, which then leaves [call_agent]; a turn
    without a prompt yields nothing.  The turn that initialises the root
    agent yields the agent cards first and once. *)
Theorem turn_yields (env : Env) (payload : gmap string string) (c : ascii) (s : string)
        (w : World) :
  (forall root c' s',
      root_agent w = Some root ->
      payload !! "prompt" = Some (String c' s') ->
      let r := runner_run_async env (trace w) root "Actor1" (String c s) (String c' s') in
      yielded (snd (run_turn env payload (Some (String c s)) w)) = map YEvent (run_events r) /\
      fst (run_turn env payload (Some (String c s)) w) =
      match run_error r with
      | Some e => Raise e
      | None => Ok tt
      end) /\
  (forall root,
      root_agent w = Some root ->
      (forall c' s', payload !! "prompt" <> Some (String c' s')) ->
      yielded (snd (run_turn env payload (Some (String c s)) w)) = []) /\
  (forall root agents_cards w1,
      root_agent w = None ->
      get_agent_and_card env (String c s) "Actor1" (start_turn w) = (Ok (root, agents_cards), w1) ->
      exists events,
        yielded (snd (run_turn env payload (Some (String c s)) w)) =
        YAgentsCards agents_cards :: map YEvent events).
Proof.
  split; [| split].
  - intros root c' s' Hroot Hp. cbv zeta.
    rewrite (turn_initialised _ _ _ _ _ _ Hroot), Hp.
    destruct (run_async_fields env root (String c s) (String c' s')
                (with_session (String c s) (start_turn w))) as (Hres & _ & Hy).
    cbv zeta in Hres, Hy.
    destruct (with_session_fields (String c s) (start_turn w)) as (_ & Htr & Hyw).
    rewrite Htr in Hres, Hy. rewrite Hyw in Hy. simpl in Hy, Hres. auto.
  - intros root Hroot Hp. rewrite (turn_initialised _ _ _ _ _ _ Hroot).
    destruct (payload !! "prompt") as [[|c' s']|] eqn:E; try reflexivity.
    now specialize (Hp c' s').
  - intros root cards w1 Hroot Hinit.
    pose proof (init_keeps_sessions env (String c s) "Actor1" (start_turn w)) as (_ & Hy0).
    rewrite Hinit in Hy0. cbn [snd] in Hy0. simpl in Hy0.
    rewrite (turn_init_ok _ _ _ _ _ _ _ _ Hroot Hinit). cbv zeta.
    destruct (payload !! "prompt") as [[|c' s']|].
    + exists []. simpl. now rewrite Hy0.
    + set (w2 := add_yield (YAgentsCards cards) (set_root_agent (Some root) w1)).
      destruct (run_async_fields env root (String c s) (String c' s')
                  (with_session (String c s) w2)) as (_ & _ & Hy).
      cbv zeta in Hy.
      destruct (with_session_fields (String c s) w2) as (_ & _ & Hyw).
      rewrite Hy, Hyw. eexists. subst w2. simpl. rewrite Hy0. reflexivity.
    + exists []. simpl. now rewrite Hy0.
Qed.

(** A runner that yields two events and then raises. *)
Example turn_yields_before_raise :
  let env :=
    {| config_agents := config_agents example_env;
       ssm_get_parameter := ssm_get_parameter example_env;
       httpx_post := httpx_post example_env;
       httpx_get_card := httpx_get_card example_env;
       remote_reply := remote_reply example_env;
       runner_run_async := fun _ _ _ _ _ =>
         {| run_sends := [];
            run_events := [ {| event_author := "root_agent"; event_text := "one" |};
                            {| event_author := "root_agent"; event_text := "two" |} ];
            run_error := Some (EnvError "RuntimeError") |};
       today := today example_env;
       uuid4 := uuid4 example_env |} in
  let out := run_turn env example_payload (Some "session-2") after_first_turn in
  fst out = Raise (EnvError "RuntimeError") /\
  yielded (snd out) =
  [ YEvent {| event_author := "root_agent"; event_text := "one" |};
    YEvent {| event_author := "root_agent"; event_text := "two" |} ].
Proof. vm_compute. split; reflexivity. Qed.

(** ** The example client *)

Lemma load_agent_configs_lookup (agents : list AgentConfig) :
  forall (agent_configs : gmap string AgentConfig) name,
    load_agent_configs agents agent_configs !! name =
    match last (List.filter (fun c => String.eqb (cfg_name c) name) agents) with
    | Some c => Some c
    | None => agent_configs !! name
    end.
Proof.
  unfold load_agent_configs.
  induction agents as [|a agents IH]; intros agent_configs name; [reflexivity |].
  cbn [fold_left List.filter]. rewrite IH.
  destruct (String.eqb_spec (cfg_name a) name) as [Heq|Hne].
  - destruct (List.filter _ agents) as [|b l] eqn:E.
    + cbn [last]. rewrite Heq. apply lookup_insert_eq.
    + rewrite last_cons_cons.
      assert (Hsome : is_Some (last (b :: l))) by (apply last_is_Some; discriminate).
      destruct Hsome as [x ->]. reflexivity.
  - destruct (last (List.filter _ agents)); [reflexivity |].
    now rewrite lookup_insert_ne.
Qed.

(** X14. The dictionary [load_agent_configs] builds maps a name to the
    last configuration entry of exactly that name (the comparison is case
    sensitive), and knows no other name.  [send_sync_message] for a name
    the dictionary does not know raises ValueError and calls nothing:
    neither the secret store nor the token endpoint nor an agent. *)
Theorem load_agent_configs_last_wins (env : Env) (agents : list AgentConfig) (name : string) :
  load_agent_configs agents ∅ !! name =
  last (List.filter (fun c => String.eqb (cfg_name c) name) agents) /\
  (is_Some (load_agent_configs agents ∅ !! name) <->
   exists c, In c agents /\ cfg_name c = name) /\
  (forall c, load_agent_configs agents ∅ !! name = Some c -> In c agents /\ cfg_name c = name) /\
  ((forall c, In c agents -> cfg_name c <> name) ->
   forall message w,
     send_sync_message env (load_agent_configs agents ∅) name message w =
     (Raise (ValueError ("Agent " +:+ name +:+ " not found in configuration")), w)).
Proof.
  assert (Hlookup : load_agent_configs agents ∅ !! name =
                    last (List.filter (fun c => String.eqb (cfg_name c) name) agents)).
  { rewrite load_agent_configs_lookup.
    destruct (last _); [reflexivity | apply lookup_empty]. }
  assert (Hsome : forall c, load_agent_configs agents ∅ !! name = Some c ->
                            In c agents /\ cfg_name c = name).
  { intros c. rewrite Hlookup. intros Hlast.
    apply last_Some_elem_of in Hlast. apply list_elem_of_In in Hlast.
    apply filter_In in Hlast as [Hin Heq]. split; [exact Hin |].
    now apply String.eqb_eq. }
  split; [exact Hlookup |]. split; [| split; [exact Hsome |]].
  - split.
    + intros [c Hc]. exists c. now apply Hsome.
    + intros (c & Hin & Heq). rewrite Hlookup.
      destruct (List.filter _ agents) as [|b l] eqn:E.
      * exfalso. assert (Hc : In c (List.filter (fun c => String.eqb (cfg_name c) name) agents)).
        { apply filter_In. split; [exact Hin |]. now apply String.eqb_eq. }
        rewrite E in Hc. exact Hc.
      * apply last_is_Some. discriminate.
  - intros Hnone message w. unfold send_sync_message.
    destruct (load_agent_configs agents ∅ !! name) as [c|] eqn:E; [| reflexivity].
    destruct (Hsome c eq_refl) as (Hin & Heq). now apply Hnone in Hin.
Qed.

Example load_agent_configs_duplicate :
  load_agent_configs
    [ monitoring_config;
      {| cfg_name := "Monitoring_Agent"; cfg_description := "second entry";
         cfg_region := "eu-west-1"; cfg_runtime_arn := "arn:2";
         cfg_ssm_idp_config_path := "/a2a/second" |} ] ∅ !! "Monitoring_Agent"
  = Some {| cfg_name := "Monitoring_Agent"; cfg_description := "second entry";
            cfg_region := "eu-west-1"; cfg_runtime_arn := "arn:2";
            cfg_ssm_idp_config_path := "/a2a/second" |}.
Proof. vm_compute. reflexivity. Qed.

(** X15. A successful [send_sync_message] makes six calls in this order:
    the secret store, the token endpoint, the draw of the session id, the
    agent card, the draw of the message id, and one message.  The card is
    fetched at the agent-card URL of the configuration entry; the message
    goes to the URL the card names, with the same Authorization and
    session headers as the card fetch, and is a user message of one text
    part holding the text given.  When the secret store fails, its
    exception leaves the function after that one call. *)
Theorem send_sync_message_calls (env : Env) (agent_configs : gmap string AgentConfig)
        (agent_name message : string) (config : AgentConfig) (w : World) :
  agent_configs !! agent_name = Some config ->
  (forall r w',
      send_sync_message env agent_configs agent_name message w = (Ok r, w') ->
      exists request bearer_token session_id card message_id response,
        let ssm_call := SsmGetParameter (cfg_ssm_idp_config_path config) (cfg_region config) in
        let card_call := CardGet (agent_card_url config) (auth_headers bearer_token session_id) in
        let sent := {| role := user; parts := [ {| root := TextPart message |} ];
                       message_id := message_id |} in
        trace w' =
        (trace w ++
         [ ssm_call; TokenPost request; Uuid4; card_call; Uuid4;
           MessageSend (card_url card) (auth_headers bearer_token session_id) sent ])%list /\
        token_of_response (httpx_post env (trace w ++ [ssm_call]) request) = Ok bearer_token /\
        session_id = uuid4 env (trace w ++ [ssm_call; TokenPost request]) /\
        httpx_get_card env (trace w ++ [ssm_call; TokenPost request; Uuid4])
                       (agent_card_url config) (auth_headers bearer_token session_id) = Ok card /\
        remote_reply env (trace w ++ [ssm_call; TokenPost request; Uuid4; card_call; Uuid4])
                     (card_url card) (auth_headers bearer_token session_id) sent = Ok response /\
        r = Some (reply_of response)) /\
  (forall e,
      ssm_get_parameter env (trace w) (cfg_ssm_idp_config_path config) (cfg_region config)
      = Raise e ->
      send_sync_message env agent_configs agent_name message w =
      (Raise e, add_call (SsmGetParameter (cfg_ssm_idp_config_path config)
                                          (cfg_region config)) w)).
Proof.
  intros Hconfig. split.
  - intros r w'. unfold send_sync_message. rewrite Hconfig.
    unfold bind at 1. unfold try_except. unfold bind at 1.
    unfold fetch_ssm_parameter. rewrite outside_run.
    destruct (ssm_get_parameter env _ _ _) as [idp_config|e]; [| discriminate].
    rewrite get_bearer_token_run.
    destruct (token_of_response _) as [bearer_token|e] eqn:Etoken; [| discriminate].
    unfold bind at 1. rewrite outside_run.
    unfold bind at 1. unfold get_agent_card. rewrite outside_run, resolver_url.
    destruct (httpx_get_card env _ _ _) as [card|e] eqn:Ecard; [| discriminate].
    unfold bind at 1. unfold create_message. unfold bind at 1. rewrite outside_run.
    unfold ret at 1.
    unfold bind at 1. unfold send_message. unfold bind at 1. rewrite outside_run.
    destruct (remote_reply env _ _ _ _) as [response|e] eqn:Ereply; [| discriminate].
    unfold ret. intros [= <- <-]. cbn [trace add_call] in *.
    rewrite <- ?app_assoc in *. cbn [app] in *.
    eexists _, bearer_token, _, card, _, response. cbv zeta.
    split; [reflexivity |]. split; [exact Etoken |]. split; [reflexivity |].
    split; [exact Ecard |]. split; [exact Ereply |].
    destruct (reply_events_non_streaming response) as (event & Hev & Hfirst).
    cbn [factory_create bound_config factory_config streaming]. now rewrite Hev.
  - intros e Hssm. unfold send_sync_message. rewrite Hconfig.
    unfold bind at 1. unfold try_except. unfold bind at 1.
    unfold fetch_ssm_parameter. rewrite outside_run, Hssm. reflexivity.
Qed.

Lemma send_sync_message_calls_witness :
  exists r w',
    send_sync_message example_env example_agent_configs "Monitoring_Agent" "hello"
                      initial_world = (Ok r, w') /\
    length (trace w') = 6.
Proof.
  assert (Hconfig : example_agent_configs !! "Monitoring_Agent" = Some monitoring_config)
    by (vm_compute; reflexivity).
  destruct (send_sync_message example_env example_agent_configs "Monitoring_Agent" "hello"
                              initial_world) as [[r|e] w'] eqn:E.
  - exists r, w'. split; [reflexivity |].
    destruct (send_sync_message_calls example_env example_agent_configs "Monitoring_Agent"
                "hello" monitoring_config initial_world Hconfig) as (H & _).
    destruct (H r w' E) as (? & ? & ? & ? & ? & ? & Htrace & _).
    cbv zeta in Htrace. rewrite Htrace. reflexivity.
  - vm_compute in E. discriminate E.
Defined.

(** ** More on the reply decoder *)

Lemma concat_app (l1 l2 : list string) :
  PyStr.concat (l1 ++ l2) = PyStr.concat l1 +:+ PyStr.concat l2.
Proof.
  induction l1 as [|x l1 IH]; simpl; [now rewrite append_nil |].
  now rewrite IH, append_assoc.
Qed.

Lemma agent_messages_app (h1 h2 : list Message) :
  agent_messages (h1 ++ h2) =
  match agent_messages h1 with
  | Ok texts1 =>
      match agent_messages h2 with
      | Ok texts2 => Ok (texts1 ++ texts2)%list
      | Raise e => Raise e
      end
  | Raise e => Raise e
  end.
Proof.
  induction h1 as [|m h1 IH]; simpl.
  - now destruct (agent_messages h2).
  - destruct (String.eqb (role_value (role m)) "agent"); [| exact IH].
    destruct (parts m) as [|p ps]; [exact IH |].
    destruct (part_text p) as [text|e]; [| reflexivity].
    rewrite IH. destruct (agent_messages h1); [| reflexivity].
    now destruct (agent_messages h2).
Qed.

Lemma agent_messages_filter (h : list Message) :
  agent_messages (List.filter is_agent h) = agent_messages h.
Proof.
  induction h as [|m h IH]; [reflexivity |].
  cbn [List.filter]. destruct (is_agent m) eqn:Em.
  - cbn [agent_messages]. rewrite IH. reflexivity.
  - cbn [agent_messages]. rewrite is_agent_role_value, Em. exact IH.
Qed.

Lemma fallback_texts r text :
  first_artifact_part r = None ->
  format_agent_response r = Ok text ->
  exists texts, agent_messages (history r) = Ok texts /\ PyStr.concat texts = text.
Proof.
  unfold format_agent_response. intros ->.
  destruct (agent_messages (history r)) as [texts|e]; [| discriminate].
  intros [= <-]. now exists texts.
Qed.

(** X16. What the decoder reads.  When the first artifact has a first
    part, the history is never read: two replies with the same such part
    decode alike.  Otherwise the decoder reads the agent-role messages
    only (dropping the user-role messages from the history changes
    nothing) and works message by message: the decoding of a history in
    two pieces is the decoding of the first piece followed by that of the
    second. *)
Theorem format_agent_response_reads (r : Task) :
  (forall r' p,
      first_artifact_part r = Some p -> first_artifact_part r' = Some p ->
      format_agent_response r' = format_agent_response r) /\
  (forall r',
      first_artifact_part r = None -> first_artifact_part r' = None ->
      history r' = List.filter is_agent (history r) ->
      format_agent_response r' = format_agent_response r) /\
  (forall r1 r2 text1 text2,
      first_artifact_part r = None ->
      first_artifact_part r1 = None -> first_artifact_part r2 = None ->
      history r = (history r1 ++ history r2)%list ->
      format_agent_response r1 = Ok text1 ->
      format_agent_response r2 = Ok text2 ->
      format_agent_response r = Ok (text1 +:+ text2)).
Proof.
  split; [| split].
  - intros r' p H H'. unfold format_agent_response. now rewrite H, H'.
  - intros r' H H' Hh. unfold format_agent_response.
    now rewrite H, H', Hh, agent_messages_filter.
  - intros r1 r2 text1 text2 H H1 H2 Hh Hd1 Hd2.
    destruct (fallback_texts _ _ H1 Hd1) as (texts1 & E1 & <-).
    destruct (fallback_texts _ _ H2 Hd2) as (texts2 & E2 & <-).
    unfold format_agent_response.
    now rewrite H, Hh, agent_messages_app, E1, E2, concat_app.
Qed.

Example decode_in_two_pieces :
  format_agent_response
    (example_task [ {| role := agent; parts := [text_part "one "]; message_id := "m1" |};
                    {| role := user; parts := [ {| root := FilePart "f" |} ]; message_id := "m2" |};
                    {| role := agent; parts := [text_part "two"]; message_id := "m3" |} ] None)
  = Ok "one two".
Proof. reflexivity. Qed.
